(** * create-nextpy-app: the Python backend template ([backend_folder/main.py])

    A shallow embedding of the FastAPI service stub and the properties of its
    two handlers and of its start-up configuration.

    Layout:
    - [Py]       the fragment of the Python runtime the module relies on
                 (strings, [repr], f-string formatting);
    - [Json]     JSON documents and the interpreter's decoder, with its
                 limits on integer digits and on nesting;
    - [Readback] reading an escaped code point back, for the results on
                 what the rendering keeps apart;
    - [Os]       the process, its environment block and [os.getenv];
    - [Fastapi]  the application object, CORS middleware options, routes,
                 request binding and dispatch;
    - [Main]     [main.py] itself, statement by statement, and the server
                 that runs it;
    - the properties: the handlers and the start-up configuration, routing,
      and the rendering that [create_item] echoes (printable, bounded in
      size, injective). *)

From Stdlib Require Import ZArith NArith List String Ascii PrimFloat.
From Stdlib Require Import DecimalString DecimalPos DecimalZ.
From stdpp Require Import base option list countable gmap.
Import ListNotations.

Set Warnings "-register-all".
Local Open Scope N_scope.

(* ===================================================================== *)
(** ** Python runtime fragment                                            *)
(* ===================================================================== *)

Module Py.

(** A Python [str] is a sequence of Unicode code points. *)
Definition str : Type := list N.

(** Source literals (all of them ASCII in [main.py]). *)
Definition lit (s : string) : str :=
  List.map N_of_ascii (list_ascii_of_string s).

(** [sep.join(parts)] *)
Fixpoint join (sep : str) (parts : list str) : str :=
  match parts with
  | [] => []
  | [p] => p
  | p :: rest => p ++ sep ++ join sep rest
  end.

(** [repr] of an [int]: decimal digits, a leading minus sign when negative.
    This is the text; the interpreter refuses to produce it, and to read it,
    beyond [int_max_str_digits] digits (see [int_renders] and, for the
    decoder, [Json.int_of_literal]). *)
Definition int_repr (z : Z) : str :=
  lit (NilZero.string_of_int (Z.to_int z)).

(** [sys.get_int_max_str_digits()], at its default. *)
Definition int_max_str_digits : nat := 4300.

(** The number of decimal digits of an [int], the sign not counted. *)
Definition int_digits (z : Z) : nat := length (int_repr (Z.abs z)).

(** The integer written as a one followed by [n] zeros. *)
Definition one_and_zeros (n : nat) : Z :=
  Z.of_int (Decimal.Pos (Decimal.D1 (Nat.iter n Decimal.D0 Decimal.Nil))).

(** Converting the [int] to text, or text of that many digits to an [int],
    does not raise [ValueError]. *)
Definition int_renders (z : Z) : bool :=
  (int_digits z <=? int_max_str_digits)%nat.

Definition bool_repr (b : bool) : str :=
  if b then lit "True" else lit "False".

(** *** [repr] of a [str] (CPython's [unicode_repr]) *)

Definition SQUOTE : N := 39.
Definition DQUOTE : N := 34.
Definition BACKSLASH : N := 92.

Definition hexdigit (n : N) : N :=
  nth (N.to_nat n) (lit "0123456789abcdef") 0.

(** [k] hexadecimal digits of [ch], most significant first. *)
Fixpoint hex (k : nat) (ch : N) : str :=
  match k with
  | O => []
  | S k' => hex k' (N.shiftr ch 4) ++ [hexdigit (N.land ch 15)]
  end.

Definition contains (c : N) (s : str) : bool := existsb (N.eqb c) s.

(** Single quotes unless the text has a single quote and no double quote. *)
Definition quote_for (s : str) : N :=
  if contains SQUOTE s && negb (contains DQUOTE s) then DQUOTE else SQUOTE.

Section StrRepr.
(** [str.isprintable] on one code point: the Unicode database table
    behind [Py_UNICODE_ISPRINTABLE]; consulted for non-ASCII only. *)
Variable isprintable : N -> bool.

Definition repr_char (quote ch : N) : str :=
  if (ch =? quote) || (ch =? BACKSLASH) then [BACKSLASH; ch]
  else if ch =? 9 then lit "\t"
  else if ch =? 10 then lit "\n"
  else if ch =? 13 then lit "\r"
  else if (ch <? 32) || (ch =? 127) then lit "\x" ++ hex 2 ch
  else if ch <? 127 then [ch]
  else if isprintable ch then [ch]
  else if ch <=? 255 then lit "\x" ++ hex 2 ch
  else if ch <=? 65535 then lit "\u" ++ hex 4 ch
  else lit "\U" ++ hex 8 ch.

Definition str_repr (s : str) : str :=
  let quote := quote_for s in
  [quote] ++ flat_map (repr_char quote) s ++ [quote].

(** [s.isprintable()]: every code point of [s] is printable.  In ASCII the
    printable ones run from the space to the tilde. *)
Definition char_isprintable (c : N) : bool :=
  if c <? 128 then (32 <=? c) && (c <? 127) else isprintable c.

Definition str_isprintable (s : str) : bool := forallb char_isprintable s.
End StrRepr.

(** Code points end at [sys.maxunicode]. *)
Definition is_code_point (c : N) : bool := c <=? 1114111.

(** A list of numbers that is a [str]: every member is a code point. *)
Definition is_str (s : str) : bool := forallb is_code_point s.

(** *** Values

    The objects a decoded JSON document is made of: [None], [bool], [int],
    [float] (a C double), [str], [list] and [dict] with [str] keys.  A
    [dict] keeps its items in insertion order, which [repr] follows. *)
Inductive value : Type :=
| VNone
| VBool (b : bool)
| VInt (z : Z)
| VFloat (f : float)
| VStr (s : str)
| VList (l : list value)
| VDict (d : list (str * value)).

Definition is_dict (v : value) : bool :=
  match v with VDict _ => true | _ => false end.

(** [list(d.keys())] and [d.get(k)] *)
Definition keys (d : list (str * value)) : list str := List.map fst d.

Fixpoint get (k : str) (d : list (str * value)) : option value :=
  match d with
  | [] => None
  | (k', v) :: rest => if decide (k = k') then Some v else get k rest
  end.

(** No [float] anywhere inside. *)
Fixpoint float_free (v : value) : bool :=
  match v with
  | VFloat _ => false
  | VList l => forallb float_free l
  | VDict d => forallb (fun kv => let '(_, x) := kv in float_free x) d
  | _ => true
  end.

(** Every [str] inside, keys included, is made of code points. *)
Fixpoint well_formed (v : value) : bool :=
  match v with
  | VStr s => is_str s
  | VList l => forallb well_formed l
  | VDict d => forallb (fun kv => let '(k, x) := kv in is_str k && well_formed x) d
  | _ => true
  end.

(** [repr(v)] meets no [int] beyond the digit limit, so it does not raise
    [ValueError]. *)
Fixpoint renders (v : value) : bool :=
  match v with
  | VInt z => int_renders z
  | VList l => forallb renders l
  | VDict d => forallb (fun kv => let '(_, x) := kv in renders x) d
  | _ => true
  end.

(** [d[k] = v]: the value is replaced where the key is, and the item is
    appended when the key is new. *)
Fixpoint setitem (k : str) (v : value) (d : list (str * value)) : list (str * value) :=
  match d with
  | [] => [(k, v)]
  | (k', v') :: rest =>
      if decide (k = k') then (k', v) :: rest else (k', v') :: setitem k v rest
  end.

(** A value free of floats whose strings are made of code points, and a
    dictionary item with such a value and such a key. *)
Definition plain (v : value) : Prop :=
  float_free v = true /\ well_formed v = true.

Definition plain_item (kv : str * value) : Prop :=
  is_str (fst kv) = true /\ plain (snd kv).

Section Repr.
Variable isprintable : N -> bool.
(** [float.__repr__] (shortest round-tripping decimal, [inf], [nan]). *)
Variable float_repr : float -> str.

Fixpoint repr (v : value) : str :=
  match v with
  | VNone => lit "None"
  | VBool b => bool_repr b
  | VInt z => int_repr z
  | VFloat f => float_repr f
  | VStr s => str_repr isprintable s
  | VList l => lit "[" ++ join (lit ", ") (List.map repr l) ++ lit "]"
  | VDict d =>
      lit "{"
      ++ join (lit ", ")
           (List.map (fun kv => let '(k, x) := kv in
                                str_repr isprintable k ++ lit ": " ++ repr x) d)
      ++ lit "}"
  end.

(** [str(v)], which is what an f-string replacement field [{v}] with no
    conversion and no format spec inserts: the text itself for a [str],
    [repr(v)] for the other types. *)
Definition str_of (v : value) : str :=
  match v with
  | VStr s => s
  | _ => repr v
  end.
End Repr.

End Py.

(* ===================================================================== *)
(** ** JSON documents and their decoding ([json.loads])                    *)
(* ===================================================================== *)

(** The request body of [POST /] reaches [create_item] through the
    interpreter's JSON decoder.  The decoder is the runtime's, not the
    repository's; it is modelled on well-formed documents, with the two ways
    it fails on them: an integer literal beyond the digit limit
    ([ValueError]) and nesting beyond what the recursion limit leaves
    ([RecursionError]). *)

Module Json.
Import Py.

(** A well-formed JSON document.  An object is the sequence of its members
    as written, repeated names included. *)
Inductive json : Type :=
| JNull
| JBool (b : bool)
| JInt (z : Z)
| JReal (f : float)
| JString (s : str)
| JArray (elements : list json)
| JObject (members : list (str * json)).

(** [int(literal)]: refused beyond the digit limit. *)
Definition int_of_literal (z : Z) : option Z :=
  if int_renders z then Some z else None.

Section Containers.
(** How one element or member value is decoded. *)
Variable decode_value : json -> option value.

(** The elements of an array, in order, up to the first that fails. *)
Fixpoint loads_array (elements : list json) : option (list value) :=
  match elements with
  | [] => Some []
  | x :: rest =>
      match decode_value x with
      | Some v => cons v <$> loads_array rest
      | None => None
      end
  end.

(** The members of an object, stored into the dictionary [d] in the order
    met, a repeated name overwriting its value. *)
Fixpoint loads_object (members : list (str * json)) (d : list (str * value))
  : option (list (str * value)) :=
  match members with
  | [] => Some d
  | (k, x) :: rest =>
      match decode_value x with
      | Some v => loads_object rest (setitem k v d)
      | None => None
      end
  end.
End Containers.

(** [json.loads] on a well-formed document, with [depth] levels of nesting
    left before the recursion limit; [None] when it raises. *)
Fixpoint loads (j : json) (depth : nat) {struct j} : option value :=
  match j with
  | JNull => Some VNone
  | JBool b => Some (VBool b)
  | JInt z => VInt <$> int_of_literal z
  | JReal f => Some (VFloat f)
  | JString s => Some (VStr s)
  | JArray elements =>
      match depth with
      | O => None
      | S depth' => VList <$> loads_array (fun x => loads x depth') elements
      end
  | JObject members =>
      match depth with
      | O => None
      | S depth' => VDict <$> loads_object (fun x => loads x depth') members []
      end
  end.

(** No real number inside, and every string, names included, made of code
    points. *)
Fixpoint plain_json (j : json) : bool :=
  match j with
  | JReal _ => false
  | JString s => is_str s
  | JArray elements => forallb plain_json elements
  | JObject members =>
      forallb (fun kx => let '(k, x) := kx in is_str k && plain_json x) members
  | _ => true
  end.

End Json.

(* ===================================================================== *)
(** ** Reading an escaped code point back                                  *)
(* ===================================================================== *)

(** [main.py] only renders; it never reads a rendering back.  The reader
    below is the inverse of [repr_char], used to show that the rendering
    keeps every code point apart. *)

Module Readback.
Import Py.

Definition unhexdigit (c : N) : N :=
  if (48 <=? c) && (c <=? 57) then c - 48 else c - 87.

(** The number written by the first [k] hexadecimal digits of [l]. *)
Definition unhex (k : nat) (l : str) : N :=
  fold_left (fun acc d => 16 * acc + unhexdigit d) (firstn k l) 0.

(** One code point off the front of an escaped text, and the rest. *)
Definition read_char (l : str) : option (N * str) :=
  match l with
  | [] => None
  | c :: r =>
      if c =? BACKSLASH then
        match r with
        | [] => None
        | e :: r' =>
            if e =? 116 then Some (9, r')
            else if e =? 110 then Some (10, r')
            else if e =? 114 then Some (13, r')
            else if e =? 120 then Some (unhex 2 r', skipn 2 r')
            else if e =? 117 then Some (unhex 4 r', skipn 4 r')
            else if e =? 85 then Some (unhex 8 r', skipn 8 r')
            else Some (e, r')
        end
      else Some (c, r)
  end.

(** The code points an [int] is written with: the digits and the minus
    sign. *)
Definition int_char (c : N) : bool :=
  (c =? 45) || ((48 <=? c) && (c <=? 57)).

(** What may come after a rendered value inside a rendering: nothing, or a
    code point that no [int] is written with. *)
Definition follow (r : str) : Prop :=
  match r with
  | [] => True
  | c :: _ => int_char c = false
  end.

(** The type of a value, and the type a rendering starts like. *)
Inductive tag : Type := TNone | TBool | TInt | TFloat | TStr | TList | TDict.

Definition tag_of (v : value) : tag :=
  match v with
  | VNone => TNone
  | VBool _ => TBool
  | VInt _ => TInt
  | VFloat _ => TFloat
  | VStr _ => TStr
  | VList _ => TList
  | VDict _ => TDict
  end.

Definition char_tag (c : N) : option tag :=
  if c =? 78 then Some TNone
  else if (c =? 84) || (c =? 70) then Some TBool
  else if int_char c then Some TInt
  else if (c =? SQUOTE) || (c =? DQUOTE) then Some TStr
  else if c =? 91 then Some TList
  else if c =? 123 then Some TDict
  else None.

End Readback.

(* ===================================================================== *)
(** ** Process state and the [os] module                                  *)
(* ===================================================================== *)

Module Os.
Import Py.

(** What the interpreter process has observably done so far. *)
Inductive event : Type :=
| Getenv (key : str).

(** The process: its environment block ([os.environ]) and the log of
    environment reads (ghost state, never inspected by the program). *)
Record process : Type := Process {
  environ : gmap str str;
  trace : list event
}.

(** Python code runs against the process and may change it. *)
Definition Eff (A : Type) : Type := process -> A * process.

#[global] Instance eff_ret : MRet Eff := fun A a p => (a, p).
#[global] Instance eff_bind : MBind Eff :=
  fun A B k m p => let '(a, p') := m p in k a p'.

(** [os.getenv(key, default)]: [os.environ.get(key, default)]. *)
Definition getenv (key dflt : str) : Eff str :=
  fun p =>
    (default dflt (environ p !! key),
     {| environ := environ p; trace := trace p ++ [Getenv key] |}).

End Os.

(* ===================================================================== *)
(** ** The web framework, as far as [main.py] drives it                   *)
(* ===================================================================== *)

(** [main.py] imports [FastAPI] and [CORSMiddleware]; the framework itself is
    a dependency and no part of the repository.  What it does with the calls
    and decorators of [main.py] is modelled here as the specification
    describes it; each such definition says so.  Where the specification is
    silent (the routes the constructor registers by itself, the answer to a
    body the decoder raises on) the model follows the framework. *)

Module Fastapi.
Import Py Os.

(** Keyword arguments of [CORSMiddleware]. *)
Record CORSMiddleware : Type := {
  allow_origins : list str;
  allow_credentials : bool;
  allow_methods : list str;
  allow_headers : list str
}.

(** Modelled from the spec: the middleware, which is the framework's, reads
    a list holding ["*"] as "all methods" or "all headers". *)
Definition allows_all (l : list str) : bool := bool_decide (lit "*" ∈ l).

Inductive http_method : Type := GET | POST | PUT | DELETE | PATCH | OPTIONS | HEAD.

#[global] Instance http_method_eq_dec : EqDecision http_method.
Proof. solve_decision. Defined.

(** Type annotations that occur in the module: only [dict]. *)
Inductive annotation : Type := Dict.

(** A path operation function: without parameters, or with one parameter
    that the framework fills from the request body. *)
Inductive endpoint : Type :=
| NoParams (f : Eff value)
| BodyParam (a : annotation) (f : value -> Eff value).

Record route : Type := {
  route_method : http_method;
  route_path : str;
  response_model : option annotation;
  route_endpoint : endpoint
}.

(** The pages the framework serves about an application. *)
Inductive doc_page : Type := OpenapiJson | SwaggerUi | SwaggerUiRedirect | Redoc.

(** An entry of [app.routes]: a plain route to one of the framework's own
    pages, or the route of a path operation. *)
Inductive base_route : Type :=
| Route (page_path : str) (page : doc_page)
| APIRoute (r : route).

Record FastAPI : Type := {
  user_middleware : list CORSMiddleware;
  routes : list base_route
}.

(** [FastAPI()]: with the default arguments the constructor registers the
    schema and the documentation pages. *)
Definition new : FastAPI :=
  {| user_middleware := [];
     routes := [Route (lit "/openapi.json") OpenapiJson;
                Route (lit "/docs") SwaggerUi;
                Route (lit "/docs/oauth2-redirect") SwaggerUiRedirect;
                Route (lit "/redoc") Redoc] |}.

(** [app.add_middleware(CORSMiddleware, **options)] *)
Definition add_middleware (app : FastAPI) (options : CORSMiddleware) : FastAPI :=
  {| user_middleware := options :: user_middleware app; routes := routes app |}.

Definition add_api_route (app : FastAPI) (r : route) : FastAPI :=
  {| user_middleware := user_middleware app; routes := routes app ++ [APIRoute r] |}.

(** [@app.get(path)] applied to [f] *)
Definition get (app : FastAPI) (path : str) (f : endpoint) : FastAPI :=
  add_api_route app
    {| route_method := GET; route_path := path;
       response_model := None; route_endpoint := f |}.

(** [@app.post(path, response_model=rm)] applied to [f] *)
Definition post (app : FastAPI) (path : str) (rm : annotation) (f : endpoint) : FastAPI :=
  add_api_route app
    {| route_method := POST; route_path := path;
       response_model := Some rm; route_endpoint := f |}.

(** *** Requests and responses *)

(** What decoding the request body as JSON gave: no body, a body that is
    not well-formed JSON, the decoded object, or a well-formed body on which
    the decoder raised. *)
Inductive payload : Type :=
| Absent
| Malformed
| Decoded (v : value)
| Undecodable.

Record request : Type := {
  method : http_method;
  path : str;
  query : list (str * str);
  headers : list (str * str);
  body : payload
}.

(** A response: status code and the object serialised as its JSON body. *)
Record response : Type := {
  status_code : nat;
  content : value
}.

Inductive error : Type :=
| RequestValidationError
| ResponseValidationError
| HTTPException (code : nat).

(** The status the framework's default exception handlers answer with. *)
Definition error_status (e : error) : nat :=
  match e with
  | RequestValidationError => 422
  | ResponseValidationError => 500
  | HTTPException code => code
  end%nat.

Definition status (r : error + response) : nat :=
  match r with
  | inl e => error_status e
  | inr resp => status_code resp
  end.

(** 4xx: the request is at fault. *)
Definition client_error (code : nat) : bool :=
  ((400 <=? code) && (code <? 500))%nat.

(** Modelled from the spec: the framework's validation of a value against
    an annotation, which lives in the framework and not in this
    repository.  For [dict] the spec has it accept a JSON object and reject
    everything else. *)
Definition validate (a : annotation) (v : value) : option value :=
  match a with
  | Dict => if is_dict v then Some v else None
  end.

(** Modelled from the spec: request binding.  A body parameter is filled
    from the decoded body after validation; a missing, malformed or
    ill-typed body is a [RequestValidationError] raised before the path
    operation function is called.  (Beyond the spec: when the decoder raises
    on a well-formed body, the framework answers 400 instead.) *)
Definition call (f : endpoint) (b : payload) : Eff (error + value) :=
  match f with
  | NoParams f => v ← f; mret (inr v)
  | BodyParam a f =>
      match b with
      | Decoded v =>
          match validate a v with
          | Some item => r ← f item; mret (inr r)
          | None => mret (inl RequestValidationError)
          end
      | Absent | Malformed => mret (inl RequestValidationError)
      | Undecodable => mret (inl (HTTPException 400))
      end
  end.

(** Modelled from the spec: how the framework answers once the path
    operation function has returned.  The returned object is checked against
    [response_model] when one is given, and sent with status 200 (the
    decorators of [main.py] set no other). *)
Definition respond (rm : option annotation) (v : value) : error + response :=
  match rm with
  | None => inr {| status_code := 200; content := v |}
  | Some a =>
      match validate a v with
      | Some v' => inr {| status_code := 200; content := v' |}
      | None => inl ResponseValidationError
      end
  end.

Definition matches (req : request) (r : route) : bool :=
  bool_decide (route_method r = method req)
  && bool_decide (route_path r = path req).

(** The framework's pages answer GET, and HEAD with it. *)
Definition matches_page (req : request) (page_path : str) : bool :=
  (bool_decide (method req = GET) || bool_decide (method req = HEAD))
  && bool_decide (page_path = path req).

Definition matches_route (req : request) (e : base_route) : bool :=
  match e with
  | Route page_path _ => matches_page req page_path
  | APIRoute r => matches req r
  end.

(** Modelled from the spec: the framework's dispatch.  Routing takes the
    first route that matches on method and path; the query string and the
    headers take no part.  [None]: the request is not answered by a path
    operation of the application; the answer is then the framework's own
    (one of its pages, see [documentation], or its reply to a request that
    matches no route). *)
Definition handle (app : FastAPI) (req : request) : Eff (option (error + response)) :=
  match List.find (matches_route req) (routes app) with
  | None => mret None
  | Some (Route _ _) => mret None
  | Some (APIRoute r) =>
      res ← call (route_endpoint r) (body req);
      mret (Some (match res with
                  | inl e => inl e
                  | inr v => respond (response_model r) v
                  end))
  end.

(** The page of the framework that answers the request, if one does. *)
Definition documentation (app : FastAPI) (req : request) : option doc_page :=
  match List.find (matches_route req) (routes app) with
  | Some (Route _ page) => Some page
  | _ => None
  end.

Definition page_path_of (page : doc_page) : str :=
  match page with
  | OpenapiJson => lit "/openapi.json"
  | SwaggerUi => lit "/docs"
  | SwaggerUiRedirect => lit "/docs/oauth2-redirect"
  | Redoc => lit "/redoc"
  end.

(** *** Requests of a client to the root path *)

Definition get_root (q h : list (str * str)) (b : payload) : request :=
  {| method := GET; path := lit "/"; query := q; headers := h; body := b |}.

Definition post_root (q h : list (str * str)) (b : payload) : request :=
  {| method := POST; path := lit "/"; query := q; headers := h; body := b |}.

(** The body as the framework gets it from a well-formed JSON document,
    the decoder having [depth] levels of nesting left. *)
Definition decode (depth : nat) (j : Json.json) : payload :=
  match Json.loads j depth with
  | Some v => Decoded v
  | None => Undecodable
  end.

Definition post_json (depth : nat) (q h : list (str * str)) (j : Json.json) : request :=
  post_root q h (decode depth j).


End Fastapi.

(* ===================================================================== *)
(** ** [backend_folder/main.py]                                           *)
(* ===================================================================== *)

Module Main.
Import Py Os Fastapi.

Section Source.
Variable isprintable : N -> bool.
Variable float_repr : float -> str.

(** [def read_root()] *)
Definition read_root : Eff value :=
  mret (VDict [(lit "message",
                VStr (lit "This is Get Request from python backend"))]).

(** [def create_item(item: dict)] *)
Definition create_item (item : value) : Eff value :=
  mret (VDict [(lit "message",
                VStr (lit "This is Post Request from python backend and here is response "
                      ++ str_of isprintable float_repr item))]).

(** The module body, run once when the module is imported. *)
Definition main : Eff FastAPI :=
  let app := Fastapi.new in
  origin ← getenv (lit "ALLOWED_URL") (lit "http://localhost:3000");
  let app :=
    add_middleware app
      {| allow_origins := [origin];
         allow_credentials := true;
         allow_methods := [lit "*"];
         allow_headers := [lit "*"] |} in
  let app := Fastapi.get app (lit "/") (NoParams read_root) in
  let app := Fastapi.post app (lit "/") Dict (BodyParam Dict create_item) in
  mret app.

(** *** The running server *)

Record server : Type := Server {
  app : FastAPI;
  proc : process
}.

(** Process start with environment block [env]. *)
Definition boot (env : gmap str str) : server :=
  let '(a, p) := main {| environ := env; trace := [] |} in
  {| app := a; proc := p |}.

(** Serving one request. *)
Definition serve (s : server) (req : request) : option (error + response) * server :=
  let '(r, p) := handle (app s) req (proc s) in
  (r, {| app := app s; proc := p |}).

(** The server after a sequence of requests. *)
Definition run (s : server) (reqs : list request) : server :=
  fold_left (fun s req => snd (serve s req)) reqs s.

(** The message carried by a response envelope: [Some s] exactly when the
    object is a [dict] whose only key is ["message"], bound to the [str] [s]. *)
Definition message_of (v : value) : option str :=
  match v with
  | VDict [(k, VStr s)] => if decide (k = lit "message") then Some s else None
  | _ => None
  end.

(** The CORS policy in force. *)
Definition cors (s : server) : option CORSMiddleware :=
  head (user_middleware (app s)).

End Source.
End Main.


(* ===================================================================== *)
(** ** Properties                                                          *)
(* ===================================================================== *)

Import Py Os Fastapi Main.

(** Case analysis on the path [p] of a request against the registered
    paths, one after the other: a goal for each path that matches, with [p]
    replaced by it, and one for a path that matches none. *)
Ltac on_path p :=
  match goal with
  | |- context [bool_decide (?l = p)] =>
      let Hne := fresh "Hne" in
      destruct (decide (l = p)) as [<- | Hne];
      [ | rewrite !(bool_decide_eq_false_2 (l = p) Hne); on_path p ]
  | _ => idtac
  end.

Section Properties.
Variable isprintable : N -> bool.
Variable float_repr : float -> str.

#[local] Abbreviation boot := (Main.boot isprintable float_repr).
#[local] Abbreviation create_item := (Main.create_item isprintable float_repr).
#[local] Abbreviation repr := (Py.repr isprintable float_repr).
#[local] Abbreviation str_of := (Py.str_of isprintable float_repr).

(** *** The rendering, on examples *)

Example repr_nested :
  repr (VDict [(lit "k", VList [VNone; VBool true; VInt (-15)]);
               (lit "d", VDict [])])
  = lit "{'k': [None, True, -15], 'd': {}}".
Proof. reflexivity. Qed.

Example repr_str_with_single_quote :
  repr (VStr (lit "it's")) = [DQUOTE] ++ lit "it's" ++ [DQUOTE].
Proof. reflexivity. Qed.

Example repr_str_with_both_quotes :
  repr (VStr (lit "it's " ++ [DQUOTE])) = lit "'it\'s " ++ [DQUOTE] ++ lit "'".
Proof. reflexivity. Qed.

Example repr_str_control_chars :
  repr (VStr [9; 10; 27; 92]) = lit "'\t\n\x1b\\'".
Proof. reflexivity. Qed.

Example str_of_str : str_of (VStr (lit "a")) = lit "a".
Proof. reflexivity. Qed.

(** *** Start-up *)

Lemma boot_app env :
  Main.app (boot env) =
  {| user_middleware :=
       [{| allow_origins := [default (lit "http://localhost:3000") (env !! lit "ALLOWED_URL")];
           allow_credentials := true;
           allow_methods := [lit "*"];
           allow_headers := [lit "*"] |}];
     routes :=
       [Route (lit "/openapi.json") OpenapiJson;
        Route (lit "/docs") SwaggerUi;
        Route (lit "/docs/oauth2-redirect") SwaggerUiRedirect;
        Route (lit "/redoc") Redoc;
        APIRoute
          {| route_method := GET; route_path := lit "/";
             response_model := None; route_endpoint := NoParams read_root |};
        APIRoute
          {| route_method := POST; route_path := lit "/";
             response_model := Some Dict;
             route_endpoint := BodyParam Dict create_item |}] |}.
Proof. reflexivity. Qed.

Lemma boot_proc env :
  proc (boot env) = {| environ := env; trace := [Getenv (lit "ALLOWED_URL")] |}.
Proof. reflexivity. Qed.

Lemma boot_cors env :
  cors (boot env) =
  Some {| allow_origins := [default (lit "http://localhost:3000") (env !! lit "ALLOWED_URL")];
          allow_credentials := true;
          allow_methods := [lit "*"];
          allow_headers := [lit "*"] |}.
Proof. unfold cors. rewrite boot_app. reflexivity. Qed.

(** *** Serving one request *)

Lemma serve_get_root env q h b :
  serve (boot env) (get_root q h b)
  = (Some (inr {| status_code := 200;
                  content := VDict [(lit "message",
                                     VStr (lit "This is Get Request from python backend"))] |}),
     boot env).
Proof. reflexivity. Qed.

Lemma serve_post_root_value env q h v :
  is_dict v = true ->
  serve (boot env) (post_root q h (Decoded v))
  = (Some (inr {| status_code := 200;
                  content :=
                    VDict [(lit "message",
                            VStr (lit "This is Post Request from python backend and here is response "
                                  ++ str_of v))] |}),
     boot env).
Proof. intros Hv. unfold serve, handle. cbn. unfold call, validate. rewrite Hv. reflexivity. Qed.



(** Whatever the request, serving it leaves the server as it was. *)
Lemma serve_boot_state env req : snd (serve (boot env) req) = boot env.
Proof.
  destruct req as [m p q h b].
  unfold serve, handle, matches_route, matches_page, matches. rewrite boot_app.
  cbn [routes List.find route_method route_path method path].
  on_path p.
  6: { rewrite ?andb_false_r. reflexivity. }
  all: destruct m; try reflexivity.
  all: destruct b as [ | | v | ]; try reflexivity.
  all: destruct v; reflexivity.
Qed.

Lemma run_boot env history : run (boot env) history = boot env.
Proof.
  unfold run. induction history as [ | req history IH]; [reflexivity |].
  cbn [fold_left]. rewrite serve_boot_state. exact IH.
Qed.

(** *** The handlers *)

(** C2: every [GET /], whatever its headers and query parameters (and
    whatever was served before), answers 200 with exactly
    [{"message": "This is Get Request from python backend"}]. *)
Theorem get_root_constant env history q h b :
  fst (serve (run (boot env) history) (get_root q h b))
  = Some (inr {| status_code := 200;
                 content := VDict [(lit "message",
                                    VStr (lit "This is Get Request from python backend"))] |}).
Proof. rewrite run_boot, serve_get_root. reflexivity. Qed.

(** C3: for the body [{"a": 1}], [POST /] answers 200 with the message ending
    in [{'a': 1}]: the echoed object is rendered as Python renders a [dict],
    keys in single quotes, and the rendering is the same in every run. *)
Theorem post_a_1 env history q h :
  repr (VDict [(lit "a", VInt 1)]) = lit "{'a': 1}"
  /\ fst (serve (run (boot env) history)
            (post_root q h (Decoded (VDict [(lit "a", VInt 1)]))))
     = Some (inr {| status_code := 200;
                    content :=
                      VDict [(lit "message",
                              VStr (lit "This is Post Request from python backend and here is response {'a': 1}"))] |}).
Proof.
  split; [reflexivity |].
  rewrite run_boot, serve_post_root_value by reflexivity. reflexivity.
Qed.


(** C7: what either handler returns is a JSON object with the single key
    [message] bound to a string: the constant text for GET, the constant
    prefix followed by the rendering of the received object for POST. *)
Theorem handlers_return_envelope :
  (forall p,
     message_of (fst (read_root p))
     = Some (lit "This is Get Request from python backend"))
  /\ (forall item p,
        message_of (fst (create_item item p))
        = Some (lit "This is Post Request from python backend and here is response "
                ++ str_of item))
  /\ (forall O, str_of (VDict O) = repr (VDict O)).
Proof. split_and!; intros; reflexivity. Qed.

(** C8: both handlers are free of side effects and deterministic: two
    [GET /], or two [POST /] with the same decoded body, get equal responses
    whatever was served before each; serving a request leaves the server
    state as it was; the handlers do not touch the process. *)
Theorem handlers_stateless env h1 h2 q1 hd1 b1 q2 hd2 b2 b req :
  fst (serve (run (boot env) h1) (get_root q1 hd1 b1))
  = fst (serve (run (boot env) h2) (get_root q2 hd2 b2))
  /\ fst (serve (run (boot env) h1) (post_root q1 hd1 b))
     = fst (serve (run (boot env) h2) (post_root q2 hd2 b))
  /\ snd (serve (run (boot env) h1) req) = run (boot env) h1
  /\ run (boot env) h1 = boot env
  /\ (forall p p', read_root p = (fst (read_root p'), p))
  /\ (forall item p p', create_item item p = (fst (create_item item p'), p)).
Proof.
  rewrite !run_boot. split_and!.
  - rewrite !serve_get_root. reflexivity.
  - reflexivity.
  - apply serve_boot_state.
  - reflexivity.
  - intros p p'. reflexivity.
  - intros item p p'. reflexivity.
Qed.

(** C10: [POST /] with the empty object [{}] succeeds: 200 and the message
    ending in [{}]. *)
Theorem post_empty_object env history q h :
  fst (serve (run (boot env) history) (post_root q h (Decoded (VDict []))))
  = Some (inr {| status_code := 200;
                 content :=
                   VDict [(lit "message",
                           VStr (lit "This is Post Request from python backend and here is response {}"))] |}).
Proof. rewrite run_boot, serve_post_root_value by reflexivity. reflexivity. Qed.

(** *** Start-up configuration *)

(** C5: with [ALLOWED_URL] unset, start-up succeeds with the allowed origins
    being the one default [http://localhost:3000], and the variable is read
    once, at start-up, and never while serving. *)
Theorem unset_origin_defaults env history :
  env !! lit "ALLOWED_URL" = None ->
  allow_origins <$> cors (boot env) = Some [lit "http://localhost:3000"]
  /\ trace (proc (boot env)) = [Getenv (lit "ALLOWED_URL")]
  /\ trace (proc (run (boot env) history)) = [Getenv (lit "ALLOWED_URL")].
Proof.
  intros Hunset. rewrite run_boot, boot_cors, boot_proc, Hunset.
  split_and!; reflexivity.
Qed.

(** C6: the CORS policy set at start-up allows the one origin held by
    [ALLOWED_URL], allows credentials, and allows every method and every
    header. *)
Theorem cors_policy env origin :
  env !! lit "ALLOWED_URL" = Some origin ->
  user_middleware (Main.app (boot env))
  = [{| allow_origins := [origin];
        allow_credentials := true;
        allow_methods := [lit "*"];
        allow_headers := [lit "*"] |}]
  /\ (forall c, cors (boot env) = Some c ->
        allow_origins c = [origin]
        /\ allow_credentials c = true
        /\ allows_all (allow_methods c) = true
        /\ allows_all (allow_headers c) = true)
  /\ is_Some (cors (boot env)).
Proof.
  intros Hset. rewrite boot_cors, boot_app, Hset. cbn [default]. split_and!.
  - reflexivity.
  - intros c [= <-]. split_and!; reflexivity.
  - eexists. reflexivity.
Qed.

(** C9: the default applies only when [ALLOWED_URL] is absent: set to the
    empty string, the allowed origins are [[""]] and not the default. *)
Theorem empty_origin_not_defaulted env :
  env !! lit "ALLOWED_URL" = Some (lit "") ->
  allow_origins <$> cors (boot env) = Some [lit ""]
  /\ allow_origins <$> cors (boot env) <> Some [lit "http://localhost:3000"].
Proof.
  intros Hset. rewrite boot_cors, Hset. split; [reflexivity | discriminate].
Qed.

End Properties.

(** *** Instances at concrete inputs *)


Lemma unset_origin_defaults_witness :
  (∅ : gmap str str) !! lit "ALLOWED_URL" = None
  /\ allow_origins <$> cors (boot (fun _ => true) (fun _ => []) ∅)
     = Some [lit "http://localhost:3000"].
Proof.
  split; [reflexivity |].
  exact (proj1 (unset_origin_defaults (fun _ => true) (fun _ => []) ∅ [] eq_refl)).
Defined.

Lemma cors_policy_witness :
  ({[ lit "ALLOWED_URL" := lit "https://example.com" ]} : gmap str str) !! lit "ALLOWED_URL"
  = Some (lit "https://example.com")
  /\ user_middleware
       (Main.app (boot (fun _ => true) (fun _ => [])
                    {[ lit "ALLOWED_URL" := lit "https://example.com" ]}))
     = [{| allow_origins := [lit "https://example.com"];
           allow_credentials := true;
           allow_methods := [lit "*"];
           allow_headers := [lit "*"] |}].
Proof.
  split; [vm_compute; reflexivity |].
  apply (cors_policy (fun _ => true) (fun _ => [])
           {[ lit "ALLOWED_URL" := lit "https://example.com" ]}
           (lit "https://example.com")).
  vm_compute; reflexivity.
Defined.

Lemma empty_origin_not_defaulted_witness :
  ({[ lit "ALLOWED_URL" := lit "" ]} : gmap str str) !! lit "ALLOWED_URL" = Some (lit "")
  /\ allow_origins <$> cors (boot (fun _ => true) (fun _ => []) {[ lit "ALLOWED_URL" := lit "" ]})
     = Some [lit ""].
Proof.
  split; [vm_compute; reflexivity |].
  apply (empty_origin_not_defaulted (fun _ => true) (fun _ => [])
           {[ lit "ALLOWED_URL" := lit "" ]}).
  vm_compute; reflexivity.
Defined.

(* ===================================================================== *)
(** ** Further properties of the module                                    *)
(* ===================================================================== *)

Section Routing.
Variable isprintable : N -> bool.
Variable float_repr : float -> str.

#[local] Abbreviation boot := (Main.boot isprintable float_repr).

Lemma serve_post_root_undecodable env q h :
  serve (boot env) (post_root q h Undecodable)
  = (Some (inl (HTTPException 400)), boot env).
Proof. reflexivity. Qed.

(** A request that is not for the root path, or is neither a GET nor a
    POST, reaches no path operation of [main.py]. *)
Lemma serve_boot_elsewhere env req :
  path req <> lit "/" \/ (method req <> GET /\ method req <> POST) ->
  fst (serve (boot env) req) = None.
Proof.
  destruct req as [m p q h b]. cbn [path method]. intros Hno.
  unfold serve, handle, matches_route, matches_page, matches. rewrite boot_app.
  cbn [routes List.find route_method route_path method path].
  on_path p.
  6: { rewrite ?andb_false_r. reflexivity. }
  all: destruct m; try reflexivity.
  all: exfalso; destruct Hno as [Hno | [Hg Hp]]; congruence.
Qed.

(** Case analysis on a request as the two path operations of [main.py] see
    it. *)
Lemma serve_boot_cases env req :
  (path req = lit "/" /\ method req = GET
   /\ exists resp, fst (serve (boot env) req) = Some (inr resp)
                   /\ status_code resp = 200%nat)
  \/ (path req = lit "/" /\ method req = POST
      /\ (exists O, body req = Decoded (VDict O))
      /\ exists resp, fst (serve (boot env) req) = Some (inr resp)
                      /\ status_code resp = 200%nat)
  \/ (path req = lit "/" /\ method req = POST
      /\ (forall O, body req <> Decoded (VDict O)) /\ body req <> Undecodable
      /\ fst (serve (boot env) req) = Some (inl RequestValidationError))
  \/ (path req = lit "/" /\ method req = POST
      /\ body req = Undecodable
      /\ fst (serve (boot env) req) = Some (inl (HTTPException 400)))
  \/ ((path req <> lit "/" \/ (method req <> GET /\ method req <> POST))
      /\ fst (serve (boot env) req) = None).
Proof.
  destruct (decide (path req = lit "/")) as [Hp | Hp].
  2: { do 4 right. split; [left; exact Hp | apply serve_boot_elsewhere; left; exact Hp]. }
  destruct req as [m p q h b]. cbn [path method body] in *. subst p.
  destruct m.
  1: { left. split_and!; try reflexivity. eexists. split; reflexivity. }
  1: { right. destruct b as [ | | v | ].
       1,2: right; left; split_and!; try reflexivity; try discriminate;
            intros O; discriminate.
       2: { right; right; left. split_and!; reflexivity. }
       destruct v.
       7: { left. split_and!; try reflexivity; [eexists; reflexivity |].
            eexists. split; reflexivity. }
       all: right; left; split_and!; try reflexivity; try discriminate;
            intros O; discriminate. }
  all: do 4 right; split;
    [right; split; discriminate
    | apply serve_boot_elsewhere; right; split; discriminate].
Qed.

Lemma page_path_not_root (page : doc_page) : page_path_of page <> lit "/".
Proof. destruct page; discriminate. Qed.

Lemma documentation_boot env req page :
  documentation (Main.app (boot env)) req = Some page
  <-> path req = page_path_of page /\ (method req = GET \/ method req = HEAD).
Proof.
  destruct req as [m p q h b]. cbn [path method].
  unfold documentation, matches_route, matches_page, matches. rewrite boot_app.
  cbn [routes List.find route_method route_path method path].
  on_path p.
  6: { rewrite ?andb_false_r. cbn. split; [discriminate |].
       intros [Hpath _]. exfalso. destruct page; cbn [page_path_of] in Hpath; congruence. }
  all: destruct m, page; vm_compute; split;
    first [ discriminate
          | intros _; split; [reflexivity | tauto]
          | intros [Hpath [Hm | Hm]]; first [reflexivity | discriminate ] ].
Qed.

(** X1: the two handlers of [main.py] answer exactly [GET /] and [POST /].
    The only other routes of the application are the four pages the
    framework registers ([/openapi.json], [/docs], [/docs/oauth2-redirect],
    [/redoc]), which answer GET and HEAD at those paths, none of them the
    root. *)
Theorem handlers_answer_root_only env history req :
  (is_Some (fst (serve (run (boot env) history) req))
   <-> path req = lit "/" /\ (method req = GET \/ method req = POST))
  /\ (forall page,
        documentation (Main.app (run (boot env) history)) req = Some page
        <-> path req = page_path_of page /\ (method req = GET \/ method req = HEAD))
  /\ (forall page,
        documentation (Main.app (run (boot env) history)) req = Some page ->
        fst (serve (run (boot env) history) req) = None).
Proof.
  rewrite run_boot. split_and!.
  - destruct (serve_boot_cases env req)
      as [(Hp & Hm & resp & -> & _)
         | [(Hp & Hm & _ & resp & -> & _)
           | [(Hp & Hm & _ & _ & ->)
             | [(Hp & Hm & _ & ->) | (Hno & ->)]]]].
    + split; [intros _; split; [exact Hp | left; exact Hm] | intros _; eexists; reflexivity].
    + split; [intros _; split; [exact Hp | right; exact Hm] | intros _; eexists; reflexivity].
    + split; [intros _; split; [exact Hp | right; exact Hm] | intros _; eexists; reflexivity].
    + split; [intros _; split; [exact Hp | right; exact Hm] | intros _; eexists; reflexivity].
    + split.
      * intros [x Hx]. discriminate Hx.
      * intros (Hp & Hm). exfalso. destruct Hno as [Hno | (Hg & Hpo)].
        -- exact (Hno Hp).
        -- destruct Hm as [Hm | Hm]; [exact (Hg Hm) | exact (Hpo Hm)].
  - intros page. apply documentation_boot.
  - intros page Hdoc. apply documentation_boot in Hdoc as [Hpath _].
    apply serve_boot_elsewhere. left. rewrite Hpath. apply page_path_not_root.
Qed.

(** X2: [POST /] is answered with a success response exactly when the body
    decodes to a JSON object; it is then a 200. *)
Theorem post_succeeds_iff_object env history q h b :
  (exists resp,
     fst (serve (run (boot env) history) (post_root q h b)) = Some (inr resp))
  <-> exists O, b = Decoded (VDict O).
Proof.
  rewrite run_boot. split.
  - intros (resp & Hresp).
    destruct (serve_boot_cases env (post_root q h b))
      as [(_ & Hm & _)
         | [(_ & _ & HO & _)
           | [(_ & _ & _ & _ & He) | [(_ & _ & _ & He) | (_ & He)]]]].
    + discriminate Hm.
    + exact HO.
    + rewrite He in Hresp. discriminate Hresp.
    + rewrite He in Hresp. discriminate Hresp.
    + rewrite He in Hresp. discriminate Hresp.
  - intros (O & ->). eexists. rewrite serve_post_root_value by reflexivity.
    reflexivity.
Qed.

(** X3: the two path operations fail only on the body of [POST /], and only
    with a client error: the request validation error (422) for a body that
    is absent, malformed or no object, and the 400 for a body the decoder
    raised on.  The object [create_item] returns always passes
    [response_model=dict], and [GET /] cannot fail. *)
Theorem errors_are_post_body_errors env history req e :
  fst (serve (run (boot env) history) req) = Some (inl e) ->
  method req = POST
  /\ path req = lit "/"
  /\ client_error (error_status e) = true
  /\ ((e = RequestValidationError
       /\ body req <> Undecodable /\ forall O, body req <> Decoded (VDict O))
      \/ (e = HTTPException 400 /\ body req = Undecodable)).
Proof.
  rewrite run_boot. intros He.
  destruct (serve_boot_cases env req)
    as [(_ & _ & resp & Hr & _)
       | [(_ & _ & _ & resp & Hr & _)
         | [(Hp & Hm & HO & Hu & Hr)
           | [(Hp & Hm & Hu & Hr) | (_ & Hr)]]]];
    rewrite Hr in He; try discriminate He; injection He as <-.
  - split_and!; [assumption | assumption | reflexivity |].
    left. split_and!; [reflexivity | assumption | assumption].
  - split_and!; [assumption | assumption | reflexivity |].
    right. split; [reflexivity | assumption].
Qed.

(** X4: start-up looks at [ALLOWED_URL] and at no other variable: two
    environments that agree on it give the same application, middleware and
    routes alike. *)
Theorem boot_depends_on_allowed_url_only (env1 env2 : gmap str str) :
  env1 !! lit "ALLOWED_URL" = env2 !! lit "ALLOWED_URL" ->
  Main.app (boot env1) = Main.app (boot env2)
  /\ trace (proc (boot env1)) = trace (proc (boot env2)).
Proof.
  intros Heq. rewrite !boot_app, !boot_proc, Heq. split; reflexivity.
Qed.

End Routing.

Lemma errors_are_post_body_errors_witness :
  fst (serve (run (Main.boot (fun _ => true) (fun _ => []) ∅) [])
         (post_root [] [] Undecodable))
  = Some (inl (HTTPException 400))
  /\ method (post_root [] [] Undecodable) = POST.
Proof.
  assert (H : fst (serve (run (Main.boot (fun _ => true) (fun _ => []) ∅) [])
                     (post_root [] [] Undecodable))
              = Some (inl (HTTPException 400))) by reflexivity.
  split; [exact H |].
  exact (proj1 (errors_are_post_body_errors (fun _ => true) (fun _ => [])
                  ∅ [] (post_root [] [] Undecodable) (HTTPException 400) H)).
Defined.

Lemma boot_depends_on_allowed_url_only_witness :
  (∅ : gmap str str) !! lit "ALLOWED_URL"
  = ({[ lit "PORT" := lit "8000" ]} : gmap str str) !! lit "ALLOWED_URL"
  /\ Main.app (Main.boot (fun _ => true) (fun _ => []) ∅)
     = Main.app (Main.boot (fun _ => true) (fun _ => []) {[ lit "PORT" := lit "8000" ]}).
Proof.
  assert (H : (∅ : gmap str str) !! lit "ALLOWED_URL"
              = ({[ lit "PORT" := lit "8000" ]} : gmap str str) !! lit "ALLOWED_URL")
    by (vm_compute; reflexivity).
  split; [exact H |].
  exact (proj1 (boot_depends_on_allowed_url_only (fun _ => true) (fun _ => [])
                  ∅ {[ lit "PORT" := lit "8000" ]} H)).
Defined.

(* ===================================================================== *)
(** ** The rendering that [create_item] echoes                             *)
(* ===================================================================== *)

(** Induction on values, with the hypothesis available for every member of a
    list and every value of a dictionary. *)
Lemma value_ind_nested (P : value -> Prop) :
  P VNone ->
  (forall b, P (VBool b)) ->
  (forall z, P (VInt z)) ->
  (forall f, P (VFloat f)) ->
  (forall s, P (VStr s)) ->
  (forall l, Forall P l -> P (VList l)) ->
  (forall d, Forall (fun kv => P (snd kv)) d -> P (VDict d)) ->
  forall v, P v.
Proof.
  intros HNone HBool HInt HFloat HStr HList HDict.
  fix IH 1. intros [ | b | z | f | s | l | d].
  - exact HNone.
  - apply HBool.
  - apply HInt.
  - apply HFloat.
  - apply HStr.
  - apply HList. induction l as [ | x l IHl]; constructor; [apply IH | exact IHl].
  - apply HDict. induction d as [ | [k x] d IHd]; constructor; [apply IH | exact IHd].
Qed.

Section Printable.
Variable isprintable : N -> bool.
Variable float_repr : float -> str.

#[local] Abbreviation printable := (str_isprintable isprintable).

Lemma printable_app (s t : str) :
  printable (s ++ t) = printable s && printable t.
Proof. apply forallb_app. Qed.

Lemma printable_ascii (c : N) :
  (32 <= c)%N -> (c < 127)%N -> char_isprintable isprintable c = true.
Proof.
  intros Hlo Hhi. unfold char_isprintable.
  destruct (N.ltb_spec c 128) as [_ | Hge]; [ | lia].
  apply andb_true_iff. split; [apply N.leb_le | apply N.ltb_lt]; assumption.
Qed.

Lemma hexdigit_printable (n : N) :
  (n < 16)%N -> char_isprintable isprintable (hexdigit n) = true.
Proof.
  intros Hn.
  assert (Hcases : In n [0; 1; 2; 3; 4; 5; 6; 7; 8; 9; 10; 11; 12; 13; 14; 15]%N).
  { cbn. lia. }
  cbn in Hcases.
  repeat (destruct Hcases as [<- | Hcases]; [reflexivity |]).
  contradiction.
Qed.

Lemma hex_printable (k : nat) (ch : N) : printable (hex k ch) = true.
Proof.
  revert ch. induction k as [ | k IH]; intros ch; [reflexivity |].
  cbn [hex]. rewrite printable_app, IH. unfold str_isprintable. cbn [forallb andb].
  rewrite hexdigit_printable; [reflexivity |].
  change 15%N with (N.ones 4). rewrite N.land_ones.
  apply N.mod_lt. discriminate.
Qed.

Lemma repr_char_printable (quote ch : N) :
  char_isprintable isprintable quote = true ->
  printable (repr_char isprintable quote ch) = true.
Proof.
  intros Hq. unfold repr_char, BACKSLASH.
  destruct (N.eqb_spec ch quote) as [-> | _].
  { cbn [orb]. cbn. rewrite Hq. reflexivity. }
  destruct (N.eqb_spec ch 92) as [-> | _]; [reflexivity |]. cbn [orb].
  destruct (N.eqb_spec ch 9) as [_ | _]; [reflexivity |].
  destruct (N.eqb_spec ch 10) as [_ | _]; [reflexivity |].
  destruct (N.eqb_spec ch 13) as [_ | _]; [reflexivity |].
  destruct (N.ltb_spec ch 32) as [_ | Hlo].
  { cbn [orb]. rewrite printable_app, hex_printable. reflexivity. }
  destruct (N.eqb_spec ch 127) as [_ | Hdel]; cbn [orb].
  { rewrite printable_app, hex_printable. reflexivity. }
  destruct (N.ltb_spec ch 127) as [Hhi | Hhi].
  { cbn. rewrite printable_ascii by assumption. reflexivity. }
  destruct (isprintable ch) eqn:Hpr.
  { cbn. unfold char_isprintable.
    destruct (N.ltb_spec ch 128) as [Hlt | _]; [lia |]. rewrite Hpr. reflexivity. }
  destruct (ch <=? 255)%N; [rewrite printable_app, hex_printable; reflexivity |].
  destruct (ch <=? 65535)%N; rewrite printable_app, hex_printable; reflexivity.
Qed.

Lemma quote_for_cases (s : str) : quote_for s = SQUOTE \/ quote_for s = DQUOTE.
Proof. unfold quote_for. destruct (_ && _); [right | left]; reflexivity. Qed.

Lemma printable_flat_map (f : N -> str) (s : str) :
  (forall c, printable (f c) = true) -> printable (flat_map f s) = true.
Proof.
  intros Hf. induction s as [ | c s IH]; [reflexivity |].
  cbn [flat_map]. rewrite printable_app, Hf, IH. reflexivity.
Qed.

Lemma str_repr_printable (s : str) :
  printable (str_repr isprintable s) = true.
Proof.
  unfold str_repr.
  assert (Hq : char_isprintable isprintable (quote_for s) = true).
  { destruct (quote_for_cases s) as [-> | ->]; reflexivity. }
  rewrite !printable_app, printable_flat_map by (intros c; apply repr_char_printable, Hq).
  cbn. rewrite Hq. reflexivity.
Qed.

(** X5: the rendering of a string is printable, whatever the string holds:
    control characters, line breaks and unprintable code points only occur
    escaped. *)
Theorem str_repr_isprintable (s : str) :
  printable (str_repr isprintable s) = true.
Proof. exact (str_repr_printable s). Qed.

Lemma uint_digits_printable (d : Decimal.uint) :
  printable (lit (NilEmpty.string_of_uint d)) = true.
Proof. induction d; cbn; try reflexivity; exact IHd. Qed.

Lemma int_repr_printable (z : Z) : printable (int_repr z) = true.
Proof.
  unfold int_repr, NilZero.string_of_int, NilZero.string_of_uint.
  destruct (Z.to_int z) as [d | d]; destruct d; try reflexivity;
    match goal with
    | |- context [NilEmpty.string_of_uint ?u] => exact (uint_digits_printable u)
    end.
Qed.

Lemma join_printable (sep : str) (parts : list str) :
  printable sep = true ->
  Forall (fun part => printable part = true) parts ->
  printable (join sep parts) = true.
Proof.
  intros Hsep Hparts. induction Hparts as [ | part parts Hpart _ IH]; [reflexivity |].
  destruct parts as [ | part' parts]; [exact Hpart |].
  change (join sep (part :: part' :: parts))
    with (part ++ sep ++ join sep (part' :: parts)).
  rewrite !printable_app, Hpart, Hsep, IH. reflexivity.
Qed.

Section FloatPrintable.
Hypothesis float_repr_printable : forall f, printable (float_repr f) = true.

Lemma repr_isprintable (v : value) :
  printable (repr isprintable float_repr v) = true.
Proof.
  induction v as [ | b | z | f | s | l IH | d IH] using value_ind_nested.
  - reflexivity.
  - destruct b; reflexivity.
  - apply int_repr_printable.
  - apply float_repr_printable.
  - apply str_repr_printable.
  - cbn [repr]. rewrite !printable_app, join_printable; [reflexivity .. |].
    induction IH as [ | x l Hx _ IHl]; constructor; assumption.
  - cbn [repr]. rewrite !printable_app, join_printable; [reflexivity .. |].
    induction IH as [ | [k x] d Hx _ IHd]; constructor; [ | assumption].
    cbn [snd] in Hx. rewrite !printable_app, str_repr_printable, Hx. reflexivity.
Qed.

(** X6: the message [create_item] builds for a dictionary is printable: no
    control character, line break or unprintable code point of the request
    reaches the response unescaped (provided floats render printably, as
    they do). *)
Theorem create_item_message_isprintable (item : value) (p : process) :
  is_dict item = true ->
  exists m,
    message_of (fst (create_item isprintable float_repr item p)) = Some m
    /\ printable m = true.
Proof.
  intros Hdict. destruct item as [ | | | | | | d]; try discriminate Hdict.
  exists (lit "This is Post Request from python backend and here is response "
          ++ repr isprintable float_repr (VDict d)).
  split; [reflexivity |].
  rewrite printable_app, (repr_isprintable (VDict d)). reflexivity.
Qed.

End FloatPrintable.

(** *** Size of the rendering *)

Lemma hex_length (k : nat) (ch : N) : length (hex k ch) = k.
Proof.
  revert ch. induction k as [ | k IH]; intros ch; [reflexivity |].
  cbn [hex]. rewrite length_app, IH. cbn. lia.
Qed.

Lemma repr_char_length (quote ch : N) :
  (1 <= length (repr_char isprintable quote ch) <= 10)%nat.
Proof.
  unfold repr_char.
  repeat match goal with
         | |- context [if ?c then _ else _] => destruct c
         end;
    rewrite ?length_app, ?hex_length; cbn; lia.
Qed.

Lemma flat_map_repr_char_length (quote : N) (s : str) :
  (length s <= length (flat_map (repr_char isprintable quote) s) <= 10 * length s)%nat.
Proof.
  induction s as [ | c s IH]; [cbn; lia |].
  cbn [flat_map]. rewrite length_app. cbn [length].
  pose proof (repr_char_length quote c). lia.
Qed.

(** X7: rendering a string of [n] code points takes the two quotes and
    between [n] and [10 n] code points: escaping never drops a code point
    and never grows one beyond the ten of a [\U] escape. *)
Theorem str_repr_length (s : str) :
  (length s + 2 <= length (str_repr isprintable s) <= 10 * length s + 2)%nat.
Proof.
  unfold str_repr. rewrite !length_app. cbn [length].
  pose proof (flat_map_repr_char_length (quote_for s) s). lia.
Qed.

End Printable.

Lemma create_item_message_isprintable_witness :
  (forall f : float, str_isprintable (fun _ => true) ((fun _ => lit "nan") f) = true)
  /\ is_dict (VDict [(lit "a", VStr [10; 7])]) = true
  /\ exists m,
       message_of (fst (Main.create_item (fun _ => true) (fun _ => lit "nan")
                          (VDict [(lit "a", VStr [10; 7])]) (Process ∅ [])))
       = Some m
       /\ str_isprintable (fun _ => true) m = true.
Proof.
  split; [intros f; reflexivity |].
  split; [reflexivity |].
  apply (create_item_message_isprintable (fun _ => true) (fun _ => lit "nan")
           (fun f => eq_refl)).
  reflexivity.
Defined.

(* ===================================================================== *)
(** ** The rendering keeps strings apart                                   *)
(* ===================================================================== *)

Section StrInjective.
Import Readback.
Variable isprintable : N -> bool.

Lemma unhexdigit_hexdigit (n : N) : (n < 16)%N -> unhexdigit (hexdigit n) = n.
Proof.
  intros Hn.
  assert (Hcases : In n [0; 1; 2; 3; 4; 5; 6; 7; 8; 9; 10; 11; 12; 13; 14; 15]%N).
  { cbn. lia. }
  cbn in Hcases.
  repeat (destruct Hcases as [<- | Hcases]; [reflexivity |]).
  contradiction.
Qed.

Lemma fold_unhex_hex (k : nat) (ch acc : N) :
  fold_left (fun acc d => 16 * acc + unhexdigit d) (hex k ch) acc
  = (acc * 16 ^ N.of_nat k + ch mod 16 ^ N.of_nat k)%N.
Proof.
  revert ch acc. induction k as [ | k IH]; intros ch acc.
  - cbn [hex fold_left]. change (N.of_nat 0) with 0%N.
    rewrite N.pow_0_r, N.mod_1_r. lia.
  - cbn [hex]. rewrite fold_left_app, IH. cbn [fold_left].
    rewrite unhexdigit_hexdigit.
    2: { change 15%N with (N.ones 4). rewrite N.land_ones.
         apply N.mod_lt. discriminate. }
    change 15%N with (N.ones 4). rewrite N.land_ones, N.shiftr_div_pow2.
    change (2 ^ 4)%N with 16%N.
    rewrite Nat2N.inj_succ, N.pow_succ_r', (N.Div0.mod_mul_r ch 16). lia.
Qed.

Lemma unhex_hex (k : nat) (ch : N) (r : str) :
  (ch < 16 ^ N.of_nat k)%N -> unhex k (hex k ch ++ r) = ch.
Proof.
  intros Hch. unfold unhex.
  rewrite firstn_app, hex_length, Nat.sub_diag, firstn_O, app_nil_r.
  rewrite firstn_all2 by (rewrite hex_length; lia).
  rewrite fold_unhex_hex, N.mod_small by exact Hch. lia.
Qed.

Lemma skipn_hex (k : nat) (ch : N) (r : str) : skipn k (hex k ch ++ r) = r.
Proof.
  rewrite skipn_app, hex_length, Nat.sub_diag, skipn_O.
  rewrite skipn_all2 by (rewrite hex_length; lia). reflexivity.
Qed.

(** Reading back what [repr_char] wrote gives the code point and leaves the
    rest of the text. *)
Lemma read_repr_char (quote ch : N) (r : str) :
  quote = SQUOTE \/ quote = DQUOTE ->
  is_code_point ch = true ->
  read_char (repr_char isprintable quote ch ++ r) = Some (ch, r).
Proof.
  intros Hq Hcp. apply N.leb_le in Hcp.
  unfold repr_char, SQUOTE, DQUOTE, BACKSLASH in *.
  destruct (N.eqb_spec ch quote) as [-> | Hnq].
  { destruct Hq as [-> | ->]; reflexivity. }
  destruct (N.eqb_spec ch 92) as [-> | Hnb]; [reflexivity |]. cbn [orb].
  destruct (N.eqb_spec ch 9) as [-> | _]; [reflexivity |].
  destruct (N.eqb_spec ch 10) as [-> | _]; [reflexivity |].
  destruct (N.eqb_spec ch 13) as [-> | _]; [reflexivity |].
  assert (Hplain : read_char ([ch] ++ r) = Some (ch, r)).
  { cbn. unfold BACKSLASH. destruct (N.eqb_spec ch 92); [contradiction | reflexivity]. }
  assert (Hx : (ch < 256)%N -> read_char ((lit "\x" ++ hex 2 ch) ++ r) = Some (ch, r)).
  { intros Hlt. rewrite <- app_assoc.
    change (read_char (lit "\x" ++ hex 2 ch ++ r))
      with (Some (unhex 2 (hex 2 ch ++ r), skipn 2 (hex 2 ch ++ r))).
    rewrite unhex_hex, skipn_hex by exact Hlt. reflexivity. }
  destruct (N.ltb_spec ch 32) as [Hlo | Hlo]; cbn [orb].
  { apply Hx. lia. }
  destruct (N.eqb_spec ch 127) as [-> | _]; cbn [orb].
  { apply Hx. lia. }
  destruct (N.ltb_spec ch 127) as [_ | _]; [exact Hplain |].
  destruct (isprintable ch); [exact Hplain |].
  destruct (N.leb_spec ch 255) as [Hb | _].
  { apply Hx. lia. }
  destruct (N.leb_spec ch 65535) as [Hu | _].
  - rewrite <- app_assoc.
    change (read_char (lit "\u" ++ hex 4 ch ++ r))
      with (Some (unhex 4 (hex 4 ch ++ r), skipn 4 (hex 4 ch ++ r))).
    rewrite unhex_hex, skipn_hex; [reflexivity |]. cbn. lia.
  - rewrite <- app_assoc.
    change (read_char (lit "\U" ++ hex 8 ch ++ r))
      with (Some (unhex 8 (hex 8 ch ++ r), skipn 8 (hex 8 ch ++ r))).
    rewrite unhex_hex, skipn_hex; [reflexivity |]. cbn. lia.
Qed.

Lemma read_char_quote (quote : N) (r : str) :
  quote = SQUOTE \/ quote = DQUOTE -> read_char (quote :: r) = Some (quote, r).
Proof. intros [-> | ->]; reflexivity. Qed.

Lemma repr_char_of_quote (quote : N) :
  repr_char isprintable quote quote = [BACKSLASH; quote].
Proof. unfold repr_char. rewrite N.eqb_refl. reflexivity. Qed.

(** The escaped body of a string, up to its closing quote, determines the
    string and what follows the quote. *)
Lemma str_body_inj (quote : N) (s1 s2 t1 t2 : str) :
  quote = SQUOTE \/ quote = DQUOTE ->
  is_str s1 = true -> is_str s2 = true ->
  flat_map (repr_char isprintable quote) s1 ++ quote :: t1
  = flat_map (repr_char isprintable quote) s2 ++ quote :: t2 ->
  s1 = s2 /\ t1 = t2.
Proof.
  intros Hq. revert s2.
  induction s1 as [ | c1 s1 IH]; intros [ | c2 s2] Hs1 Hs2 Heq.
  - cbn [flat_map] in Heq. rewrite !app_nil_l in Heq.
    injection Heq as ->. split; reflexivity.
  - exfalso. cbn [flat_map] in Heq. rewrite app_nil_l, <- app_assoc in Heq.
    apply andb_true_iff in Hs2 as [Hc2 _].
    pose proof (f_equal read_char Heq) as Hread.
    rewrite read_char_quote, read_repr_char in Hread by assumption.
    injection Hread as <- _. rewrite repr_char_of_quote in Heq.
    destruct Hq as [-> | ->]; discriminate Heq.
  - exfalso. cbn [flat_map] in Heq. rewrite app_nil_l, <- app_assoc in Heq.
    apply andb_true_iff in Hs1 as [Hc1 _].
    pose proof (f_equal read_char Heq) as Hread.
    rewrite read_char_quote, read_repr_char in Hread by assumption.
    injection Hread as <- _. rewrite repr_char_of_quote in Heq.
    destruct Hq as [-> | ->]; discriminate Heq.
  - cbn [flat_map] in Heq. rewrite <- !app_assoc in Heq.
    apply andb_true_iff in Hs1 as [Hc1 Hs1].
    apply andb_true_iff in Hs2 as [Hc2 Hs2].
    pose proof (f_equal read_char Heq) as Hread.
    rewrite !read_repr_char in Hread by assumption.
    injection Hread as <- Hrest.
    destruct (IH s2 Hs1 Hs2 Hrest) as [-> ->]. split; reflexivity.
Qed.

Lemma str_repr_inj_rest (s1 s2 t1 t2 : str) :
  is_str s1 = true -> is_str s2 = true ->
  str_repr isprintable s1 ++ t1 = str_repr isprintable s2 ++ t2 ->
  s1 = s2 /\ t1 = t2.
Proof.
  intros Hs1 Hs2 Heq. unfold str_repr in Heq.
  rewrite <- !app_assoc in Heq. cbn [app] in Heq.
  injection Heq as Hquote Hbody. rewrite <- Hquote in Hbody.
  exact (str_body_inj (quote_for s1) s1 s2 t1 t2 (quote_for_cases s1) Hs1 Hs2 Hbody).
Qed.

(** X8: the rendering of strings loses nothing: two strings with the same
    rendering are the same string. *)
Theorem str_repr_inj (s1 s2 : str) :
  is_str s1 = true -> is_str s2 = true ->
  str_repr isprintable s1 = str_repr isprintable s2 ->
  s1 = s2.
Proof.
  intros Hs1 Hs2 Heq.
  apply (str_repr_inj_rest s1 s2 [] []); [assumption .. |].
  rewrite !app_nil_r. exact Heq.
Qed.

End StrInjective.

Lemma str_repr_inj_witness :
  is_str (lit "it's") = true
  /\ str_repr (fun _ => true) (lit "it's") = str_repr (fun _ => true) (lit "it's")
  /\ lit "it's" = lit "it's".
Proof.
  split; [reflexivity |]. split; [reflexivity |].
  exact (str_repr_inj (fun _ => true) (lit "it's") (lit "it's") eq_refl eq_refl eq_refl).
Defined.

(* ===================================================================== *)
(** ** The rendering keeps objects apart                                   *)
(* ===================================================================== *)

Section IntInjective.
Import Readback.

Lemma lit_inj (a b : string) : lit a = lit b -> a = b.
Proof.
  unfold lit. intros Heq.
  rewrite <- (string_of_list_ascii_of_string a), <- (string_of_list_ascii_of_string b).
  f_equal. revert Heq.
  generalize (list_ascii_of_string a) (list_ascii_of_string b).
  intros la. induction la as [ | x la IH]; intros [ | y lb] Heq;
    try discriminate Heq; [reflexivity |].
  cbn [List.map] in Heq. injection Heq as Hxy Hrest.
  f_equal; [ | exact (IH lb Hrest)].
  rewrite <- (ascii_N_embedding x), <- (ascii_N_embedding y), Hxy. reflexivity.
Qed.

Lemma to_int_proper (z : Z) :
  Z.to_int z <> Decimal.Pos Decimal.Nil /\ Z.to_int z <> Decimal.Neg Decimal.Nil.
Proof.
  destruct z as [ | p | p]; cbn; split; try discriminate;
    intros [= H]; exact (DecimalPos.Unsigned.to_uint_nonnil p H).
Qed.

Lemma int_repr_inj (z1 z2 : Z) : int_repr z1 = int_repr z2 -> z1 = z2.
Proof.
  unfold int_repr. intros Heq. apply lit_inj in Heq.
  apply (f_equal NilZero.int_of_string) in Heq.
  destruct (to_int_proper z1) as [Hp1 Hn1], (to_int_proper z2) as [Hp2 Hn2].
  rewrite !NilZero.isi in Heq by assumption.
  injection Heq as Heq. exact (DecimalZ.to_int_inj z1 z2 Heq).
Qed.

Lemma uint_digits_int_chars (d : Decimal.uint) :
  forallb int_char (lit (NilEmpty.string_of_uint d)) = true.
Proof. induction d; cbn; try reflexivity; exact IHd. Qed.

Lemma int_repr_chars (z : Z) : forallb int_char (int_repr z) = true.
Proof.
  unfold int_repr, NilZero.string_of_int, NilZero.string_of_uint.
  destruct (Z.to_int z) as [d | d]; destruct d; try reflexivity;
    match goal with
    | |- context [NilEmpty.string_of_uint ?u] => exact (uint_digits_int_chars u)
    end.
Qed.

Lemma int_repr_head (z : Z) :
  exists c tl, int_repr z = c :: tl /\ int_char c = true.
Proof.
  pose proof (int_repr_chars z) as Hchars.
  destruct (int_repr z) as [ | c tl] eqn:Hz.
  - exfalso. unfold int_repr, NilZero.string_of_int, NilZero.string_of_uint in Hz.
    destruct (to_int_proper z) as [Hp Hn].
    destruct (Z.to_int z) as [d | d]; destruct d; try discriminate Hz;
      contradiction.
  - apply andb_true_iff in Hchars as [Hc _]. exists c, tl. split; [reflexivity | exact Hc].
Qed.

(** A run of [int] code points is delimited by what follows it. *)
Lemma span_unique (a1 a2 r1 r2 : str) :
  forallb int_char a1 = true -> forallb int_char a2 = true ->
  follow r1 -> follow r2 ->
  a1 ++ r1 = a2 ++ r2 -> a1 = a2 /\ r1 = r2.
Proof.
  revert a2. induction a1 as [ | c1 a1 IH]; intros [ | c2 a2] H1 H2 Hf1 Hf2 Heq.
  - rewrite !app_nil_l in Heq. split; [reflexivity | exact Heq].
  - exfalso. rewrite app_nil_l in Heq. subst r1.
    apply andb_true_iff in H2 as [Hc2 _]. cbn in Hf1. congruence.
  - exfalso. rewrite app_nil_l in Heq. subst r2.
    apply andb_true_iff in H1 as [Hc1 _]. cbn in Hf2. congruence.
  - apply andb_true_iff in H1 as [_ H1]. apply andb_true_iff in H2 as [_ H2].
    injection Heq as <- Heq.
    destruct (IH a2 H1 H2 Hf1 Hf2 Heq) as [-> ->]. split; reflexivity.
Qed.

Lemma int_repr_inj_rest (z1 z2 : Z) (r1 r2 : str) :
  follow r1 -> follow r2 ->
  int_repr z1 ++ r1 = int_repr z2 ++ r2 -> z1 = z2 /\ r1 = r2.
Proof.
  intros Hf1 Hf2 Heq.
  destruct (span_unique _ _ _ _ (int_repr_chars z1) (int_repr_chars z2) Hf1 Hf2 Heq)
    as [Hz ->].
  split; [exact (int_repr_inj z1 z2 Hz) | reflexivity].
Qed.

End IntInjective.

Lemma join_cons (sep x : str) (l : list str) :
  join sep (x :: l) = x ++ flat_map (fun y => sep ++ y) l.
Proof.
  revert x. induction l as [ | y l IH]; intros x.
  - cbn [join flat_map]. rewrite app_nil_r. reflexivity.
  - change (join sep (x :: y :: l)) with (x ++ sep ++ join sep (y :: l)).
    rewrite IH. cbn [flat_map]. rewrite <- app_assoc. reflexivity.
Qed.

(** Items written one after the other, separated by [", "] and closed by a
    bracket, determine the items when each item is delimited by what
    follows it. *)
Section Items.
Import Readback.
Context {A : Type}.
Variable f : A -> str.
Variable good : A -> Prop.
Variable close : N.
Hypothesis close_follow : int_char close = false.
Hypothesis close_not_comma : close <> 44%N.
Hypothesis f_not_close : forall a t t', good a -> f a ++ t <> close :: t'.

#[local] Abbreviation delimited a1 :=
  (forall a2 t1 t2, good a1 -> good a2 -> follow t1 -> follow t2 ->
                    f a1 ++ t1 = f a2 ++ t2 -> a1 = a2 /\ t1 = t2).

#[local] Abbreviation more l :=
  (flat_map (fun y => lit ", " ++ y) (List.map f l)).

Lemma follow_more (l : list A) (r : str) : follow (more l ++ close :: r).
Proof.
  destruct l as [ | a l].
  - cbn [List.map flat_map]. rewrite app_nil_l. exact close_follow.
  - reflexivity.
Qed.

Lemma more_inj (l1 : list A) :
  Forall (fun a1 => delimited a1) l1 ->
  forall l2 r1 r2,
    Forall good l1 -> Forall good l2 ->
    more l1 ++ close :: r1 = more l2 ++ close :: r2 ->
    l1 = l2 /\ r1 = r2.
Proof.
  induction 1 as [ | a1 l1 Ha1 _ IH]; intros [ | a2 l2] r1 r2 Hg1 Hg2 Heq.
  - cbn [List.map flat_map] in Heq. rewrite !app_nil_l in Heq.
    injection Heq as ->. split; reflexivity.
  - exfalso. cbn [List.map flat_map] in Heq. rewrite app_nil_l in Heq.
    injection Heq as Hc _. exact (close_not_comma Hc).
  - exfalso. cbn [List.map flat_map] in Heq. rewrite app_nil_l in Heq.
    injection Heq as Hc _. exact (close_not_comma (eq_sym Hc)).
  - cbn [List.map flat_map] in Heq. rewrite <- !app_assoc in Heq.
    apply app_inv_head in Heq.
    inversion Hg1 as [ | ? ? Hga1 Hgl1]; subst.
    inversion Hg2 as [ | ? ? Hga2 Hgl2]; subst.
    destruct (Ha1 a2 _ _ Hga1 Hga2 (follow_more l1 r1) (follow_more l2 r2) Heq)
      as [-> Hrest].
    destruct (IH l2 r1 r2 Hgl1 Hgl2 Hrest) as [-> ->]. split; reflexivity.
Qed.

Lemma items_inj (l1 l2 : list A) (r1 r2 : str) :
  Forall (fun a1 => delimited a1) l1 ->
  Forall good l1 -> Forall good l2 ->
  join (lit ", ") (List.map f l1) ++ close :: r1
  = join (lit ", ") (List.map f l2) ++ close :: r2 ->
  l1 = l2 /\ r1 = r2.
Proof.
  intros Hd Hg1 Hg2 Heq.
  destruct l1 as [ | a1 l1], l2 as [ | a2 l2].
  - cbn [List.map join] in Heq. rewrite !app_nil_l in Heq.
    injection Heq as ->. split; reflexivity.
  - exfalso. cbn [List.map] in Heq. rewrite join_cons, <- app_assoc in Heq.
    cbn [join] in Heq. rewrite app_nil_l in Heq.
    inversion Hg2 as [ | ? ? Hga2 _]; subst.
    exact (f_not_close a2 _ _ Hga2 (eq_sym Heq)).
  - exfalso. cbn [List.map] in Heq. rewrite join_cons, <- app_assoc in Heq.
    cbn [join] in Heq. rewrite app_nil_l in Heq.
    inversion Hg1 as [ | ? ? Hga1 _]; subst.
    exact (f_not_close a1 _ _ Hga1 Heq).
  - cbn [List.map] in Heq. rewrite !join_cons, <- !app_assoc in Heq.
    inversion Hd as [ | ? ? Hda1 Hdl1]; subst.
    inversion Hg1 as [ | ? ? Hga1 Hgl1]; subst.
    inversion Hg2 as [ | ? ? Hga2 Hgl2]; subst.
    destruct (Hda1 a2 _ _ Hga1 Hga2 (follow_more l1 r1) (follow_more l2 r2) Heq)
      as [-> Hrest].
    destruct (more_inj l1 Hdl1 l2 r1 r2 Hgl1 Hgl2 Hrest) as [-> ->].
    split; reflexivity.
Qed.

End Items.

Section ReprInjective.
Import Readback.
Variable isprintable : N -> bool.
Variable float_repr : float -> str.

#[local] Abbreviation repr := (Py.repr isprintable float_repr).
#[local] Abbreviation str_repr := (Py.str_repr isprintable).

(** The rendering of one dictionary item. *)
#[local] Abbreviation item_repr :=
  (fun kv : str * value => let '(k, x) := kv in str_repr k ++ lit ": " ++ repr x).

Lemma plain_list (l : list value) : plain (VList l) -> Forall plain l.
Proof.
  intros [Hff Hwf]. cbn [float_free well_formed] in Hff, Hwf.
  induction l as [ | x l IH]; constructor.
  - apply andb_true_iff in Hff as [Hx _]. apply andb_true_iff in Hwf as [Hx' _].
    split; assumption.
  - apply andb_true_iff in Hff as [_ Hl]. apply andb_true_iff in Hwf as [_ Hl'].
    exact (IH Hl Hl').
Qed.

Lemma plain_dict (d : list (str * value)) : plain (VDict d) -> Forall plain_item d.
Proof.
  intros [Hff Hwf]. cbn [float_free well_formed] in Hff, Hwf.
  induction d as [ | [k x] d IH]; constructor.
  - apply andb_true_iff in Hff as [Hx _]. apply andb_true_iff in Hwf as [Hx' _].
    apply andb_true_iff in Hx' as [Hk Hx'].
    split; [exact Hk | split; assumption].
  - apply andb_true_iff in Hff as [_ Hl]. apply andb_true_iff in Hwf as [_ Hl'].
    exact (IH Hl Hl').
Qed.

Lemma str_repr_head (s : str) :
  exists c tl, str_repr s = c :: tl /\ char_tag c = Some TStr.
Proof.
  exists (quote_for s), (flat_map (repr_char isprintable (quote_for s)) s ++ [quote_for s]).
  split; [reflexivity |].
  destruct (quote_for_cases s) as [-> | ->]; reflexivity.
Qed.

Lemma int_char_tag (c : N) : int_char c = true -> char_tag c = Some TInt.
Proof.
  intros Hc. unfold char_tag. rewrite Hc.
  destruct (N.eqb_spec c 78) as [-> | _]; [discriminate Hc |].
  destruct (N.eqb_spec c 84) as [-> | _]; [discriminate Hc |].
  destruct (N.eqb_spec c 70) as [-> | _]; [discriminate Hc |].
  reflexivity.
Qed.

(** A rendering starts with a code point that tells the type of the value. *)
Lemma repr_head (v : value) :
  float_free v = true ->
  exists c tl, repr v = c :: tl /\ char_tag c = Some (tag_of v).
Proof.
  intros Hff. destruct v as [ | b | z | f | s | l | d].
  - eexists _, _. split; reflexivity.
  - destruct b; eexists _, _; split; reflexivity.
  - destruct (int_repr_head z) as (c & tl & Hz & Hc).
    exists c, tl. split; [exact Hz | exact (int_char_tag c Hc)].
  - discriminate Hff.
  - apply str_repr_head.
  - eexists _, _. split; reflexivity.
  - eexists _, _. split; reflexivity.
Qed.

Lemma same_tag (v1 v2 : value) (r1 r2 : str) :
  float_free v1 = true -> float_free v2 = true ->
  repr v1 ++ r1 = repr v2 ++ r2 -> tag_of v1 = tag_of v2.
Proof.
  intros H1 H2 Heq.
  destruct (repr_head v1 H1) as (c1 & tl1 & E1 & T1).
  destruct (repr_head v2 H2) as (c2 & tl2 & E2 & T2).
  rewrite E1, E2 in Heq. injection Heq as <- _. congruence.
Qed.

Lemma repr_not_close (close : N) (v : value) (t t' : str) :
  char_tag close = None -> plain v -> repr v ++ t <> close :: t'.
Proof.
  intros Hclose [Hff _] Heq.
  destruct (repr_head v Hff) as (c & tl & E & T).
  rewrite E in Heq. injection Heq as -> _. congruence.
Qed.

Lemma item_repr_not_close (kv : str * value) (t t' : str) :
  plain_item kv -> item_repr kv ++ t <> 125%N :: t'.
Proof.
  destruct kv as [k x]. intros _ Heq. cbv beta iota in Heq.
  destruct (str_repr_head k) as (c & tl & E & T).
  rewrite E in Heq. injection Heq as -> _. discriminate T.
Qed.

(** A rendered value, followed by the end or by a code point that is no
    digit and no minus sign, determines the value and what follows. *)
Lemma repr_inj_rest (v1 : value) :
  forall v2 r1 r2,
    plain v1 -> plain v2 -> follow r1 -> follow r2 ->
    repr v1 ++ r1 = repr v2 ++ r2 -> v1 = v2 /\ r1 = r2.
Proof.
  induction v1 as [ | b1 | z1 | f1 | s1 | l1 IH | d1 IH] using value_ind_nested;
    intros v2 r1 r2 Hp1 Hp2 Hf1 Hf2 Heq;
    pose proof (same_tag _ v2 r1 r2 (proj1 Hp1) (proj1 Hp2) Heq) as Htag;
    destruct v2 as [ | b2 | z2 | f2 | s2 | l2 | d2]; try discriminate Htag; clear Htag.
  - cbn [Py.repr] in Heq. apply app_inv_head in Heq. split; [reflexivity | exact Heq].
  - destruct b1, b2; cbn [Py.repr bool_repr] in Heq; try discriminate Heq;
      apply app_inv_head in Heq; (split; [reflexivity | exact Heq]).
  - cbn [Py.repr] in Heq.
    destruct (int_repr_inj_rest z1 z2 r1 r2 Hf1 Hf2 Heq) as [-> ->].
    split; reflexivity.
  - destruct Hp1 as [Hff _]. discriminate Hff.
  - cbn [Py.repr] in Heq.
    destruct (str_repr_inj_rest isprintable s1 s2 r1 r2 (proj2 Hp1) (proj2 Hp2) Heq)
      as [-> ->].
    split; reflexivity.
  - cbn [Py.repr] in Heq. rewrite <- !app_assoc in Heq. apply app_inv_head in Heq.
    change (lit "]" ++ r1) with (93%N :: r1) in Heq.
    change (lit "]" ++ r2) with (93%N :: r2) in Heq.
    assert (Hcomma : 93%N <> 44%N) by discriminate.
    destruct (items_inj repr plain 93%N eq_refl Hcomma
                (fun v t t' Hv => repr_not_close 93%N v t t' eq_refl Hv)
                l1 l2 r1 r2 IH (plain_list l1 Hp1) (plain_list l2 Hp2) Heq)
      as [-> ->].
    split; reflexivity.
  - cbn [Py.repr] in Heq. rewrite <- !app_assoc in Heq. apply app_inv_head in Heq.
    change (lit "}" ++ r1) with (125%N :: r1) in Heq.
    change (lit "}" ++ r2) with (125%N :: r2) in Heq.
    assert (Hitems : Forall (fun kv1 =>
                forall kv2 t1 t2, plain_item kv1 -> plain_item kv2 ->
                  follow t1 -> follow t2 ->
                  item_repr kv1 ++ t1 = item_repr kv2 ++ t2 ->
                  kv1 = kv2 /\ t1 = t2) d1).
    { apply (Forall_impl _ _ _ IH). intros [k1 x1] Hx1 [k2 x2] t1 t2 Hg1 Hg2 Ht1 Ht2 Hkv.
      cbn [snd] in Hx1. cbv beta iota in Hkv. rewrite <- !app_assoc in Hkv.
      destruct (str_repr_inj_rest isprintable k1 k2 _ _ (proj1 Hg1) (proj1 Hg2) Hkv)
        as [-> Hrest].
      apply app_inv_head in Hrest.
      destruct (Hx1 x2 t1 t2 (proj2 Hg1) (proj2 Hg2) Ht1 Ht2 Hrest) as [-> ->].
      split; reflexivity. }
    assert (Hcomma : 125%N <> 44%N) by discriminate.
    destruct (items_inj item_repr plain_item 125%N eq_refl Hcomma
                item_repr_not_close
                d1 d2 r1 r2 Hitems (plain_dict d1 Hp1) (plain_dict d2 Hp2) Heq)
      as [-> ->].
    split; reflexivity.
Qed.

End ReprInjective.

Section Lossless.
Variable isprintable : N -> bool.
Variable float_repr : float -> str.

#[local] Abbreviation repr := (Py.repr isprintable float_repr).
#[local] Abbreviation boot := (Main.boot isprintable float_repr).

Lemma repr_determines_value (v1 v2 : value) :
  plain v1 -> plain v2 -> repr v1 = repr v2 -> v1 = v2.
Proof.
  intros Hp1 Hp2 Heq.
  apply (repr_inj_rest isprintable float_repr v1 v2 [] [] Hp1 Hp2 I I).
  rewrite !app_nil_r. exact Heq.
Qed.

(** X9: the rendering of float-free values loses nothing: two such values
    with the same rendering are the same value, keys, order and nesting
    included. *)
Theorem repr_inj (v1 v2 : value) :
  plain v1 -> plain v2 -> repr v1 = repr v2 -> v1 = v2.
Proof. exact (repr_determines_value v1 v2). Qed.

Lemma ok_message_inj (k m1 m2 : str) :
  @Some (error + response)
    (inr {| status_code := 200; content := VDict [(k, VStr m1)] |})
  = Some (inr {| status_code := 200; content := VDict [(k, VStr m2)] |}) ->
  m1 = m2.
Proof. intros [= Hm]. exact Hm. Qed.

End Lossless.

Lemma repr_inj_witness :
  plain (VDict [(lit "k", VList [VNone; VBool true; VInt (-15); VStr (lit "it's")])])
  /\ VDict [(lit "k", VList [VNone; VBool true; VInt (-15); VStr (lit "it's")])]
     = VDict [(lit "k", VList [VNone; VBool true; VInt (-15); VStr (lit "it's")])].
Proof.
  assert (Hp : plain (VDict [(lit "k", VList [VNone; VBool true; VInt (-15);
                                              VStr (lit "it's")])])).
  { split; reflexivity. }
  split; [exact Hp |].
  exact (repr_inj (fun _ => true) (fun _ => []) _ _ Hp Hp eq_refl).
Defined.

(* ===================================================================== *)
(** ** [POST /] on JSON documents                                          *)
(* ===================================================================== *)

Section JsonBodies.
Import Json.

(** Induction on documents, with the hypothesis available for every element
    of an array and every member value of an object. *)
Lemma json_ind_nested (P : json -> Prop) :
  P JNull ->
  (forall b, P (JBool b)) ->
  (forall z, P (JInt z)) ->
  (forall f, P (JReal f)) ->
  (forall s, P (JString s)) ->
  (forall l, Forall P l -> P (JArray l)) ->
  (forall m, Forall (fun kx => P (snd kx)) m -> P (JObject m)) ->
  forall j, P j.
Proof.
  intros HNull HBool HInt HReal HStr HArr HObj.
  fix IH 1. intros [ | b | z | f | s | l | m].
  - exact HNull.
  - apply HBool.
  - apply HInt.
  - apply HReal.
  - apply HStr.
  - apply HArr. induction l as [ | x l IHl]; constructor; [apply IH | exact IHl].
  - apply HObj. induction m as [ | [k x] m IHm]; constructor; [apply IH | exact IHm].
Qed.

Lemma setitem_forallb (P : str * value -> bool) k v d :
  P (k, v) = true -> forallb P d = true -> forallb P (setitem k v d) = true.
Proof.
  intros Hkv. induction d as [ | [k' v'] d IH]; intros Hd.
  - cbn. rewrite Hkv. reflexivity.
  - cbn [forallb] in Hd. apply andb_true_iff in Hd as [Hhd Htl].
    cbn [setitem]. destruct (decide (k = k')) as [<- | _]; cbn [forallb].
    + rewrite Hkv, Htl. reflexivity.
    + rewrite Hhd, (IH Htl). reflexivity.
Qed.

Section Containers.
Variable decode_value : json -> option value.

Lemma loads_array_forallb (pre : json -> bool) (P : value -> bool) l :
  Forall (fun x => forall v, pre x = true -> decode_value x = Some v -> P v = true) l ->
  forallb pre l = true ->
  forall vs, loads_array decode_value l = Some vs -> forallb P vs = true.
Proof.
  induction 1 as [ | x l Hx _ IH]; intros Hpre vs Hvs.
  - injection Hvs as <-. reflexivity.
  - cbn [forallb] in Hpre. apply andb_true_iff in Hpre as [Hprex Hprel].
    cbn [loads_array] in Hvs.
    destruct (decode_value x) as [v | ] eqn:Hv; [ | discriminate Hvs].
    destruct (loads_array decode_value l) as [vs' | ]; [ | discriminate Hvs].
    injection Hvs as <-. cbn [forallb].
    rewrite (Hx v Hprex eq_refl), (IH Hprel vs' eq_refl). reflexivity.
Qed.

Lemma loads_object_forallb (pre : str * json -> bool) (P : str * value -> bool) m :
  Forall (fun kx => forall v, pre kx = true -> decode_value (snd kx) = Some v ->
                              P (fst kx, v) = true) m ->
  forallb pre m = true ->
  forall d res, forallb P d = true ->
                loads_object decode_value m d = Some res -> forallb P res = true.
Proof.
  induction 1 as [ | [k x] m Hx _ IH]; intros Hpre d res Hd Hres.
  - injection Hres as <-. exact Hd.
  - cbn [forallb] in Hpre. apply andb_true_iff in Hpre as [Hprex Hprem].
    cbn [loads_object] in Hres. cbn [fst snd] in Hx.
    destruct (decode_value x) as [v | ] eqn:Hv; [ | discriminate Hres].
    apply (IH Hprem (setitem k v d) res); [ | exact Hres].
    apply setitem_forallb; [exact (Hx v Hprex eq_refl) | exact Hd].
Qed.
End Containers.

Lemma forallb_const_true {A : Type} (l : list A) : forallb (fun _ => true) l = true.
Proof. induction l as [ | x l IH]; [reflexivity | exact IH]. Qed.

(** What the decoder yields renders: the digit limit it applies to integer
    literals is the one [repr] applies to integers. *)
Lemma loads_renders (j : json) :
  forall depth v, loads j depth = Some v -> renders v = true.
Proof.
  induction j as [ | b | z | f | s | l IH | m IH] using json_ind_nested;
    intros depth v Hv; cbn [loads] in Hv.
  - injection Hv as <-. reflexivity.
  - injection Hv as <-. reflexivity.
  - unfold int_of_literal in Hv. destruct (int_renders z) eqn:Hz; [ | discriminate Hv].
    injection Hv as <-. exact Hz.
  - injection Hv as <-. reflexivity.
  - injection Hv as <-. reflexivity.
  - destruct depth as [ | depth]; [discriminate Hv |].
    destruct (loads_array _ l) as [vs | ] eqn:Hvs; [ | discriminate Hv].
    injection Hv as <-. cbn [renders].
    apply (loads_array_forallb (fun x => loads x depth) (fun _ => true) renders l); [ | apply forallb_const_true | exact Hvs].
    apply (Forall_impl _ _ _ IH). intros x Hx v _ Hxv. exact (Hx depth v Hxv).
  - destruct depth as [ | depth]; [discriminate Hv |].
    destruct (loads_object _ m []) as [d | ] eqn:Hd; [ | discriminate Hv].
    injection Hv as <-. cbn [renders].
    apply (loads_object_forallb (fun x => loads x depth) (fun _ => true) _ m) with (d := []) (res := d);
      [ | apply forallb_const_true | reflexivity | exact Hd].
    apply (Forall_impl _ _ _ IH). intros [k x] Hx v _ Hxv. exact (Hx depth v Hxv).
Qed.

Lemma loads_float_free (j : json) :
  forall depth v, plain_json j = true -> loads j depth = Some v -> float_free v = true.
Proof.
  induction j as [ | b | z | f | s | l IH | m IH] using json_ind_nested;
    intros depth v Hj Hv; cbn [loads] in Hv; cbn [plain_json] in Hj.
  - injection Hv as <-. reflexivity.
  - injection Hv as <-. reflexivity.
  - unfold int_of_literal in Hv. destruct (int_renders z); [ | discriminate Hv].
    injection Hv as <-. reflexivity.
  - discriminate Hj.
  - injection Hv as <-. reflexivity.
  - destruct depth as [ | depth]; [discriminate Hv |].
    destruct (loads_array _ l) as [vs | ] eqn:Hvs; [ | discriminate Hv].
    injection Hv as <-. cbn [float_free].
    apply (loads_array_forallb (fun x => loads x depth) plain_json float_free l); [ | exact Hj | exact Hvs].
    apply (Forall_impl _ _ _ IH). intros x Hx v Hpre Hxv. exact (Hx depth v Hpre Hxv).
  - destruct depth as [ | depth]; [discriminate Hv |].
    destruct (loads_object _ m []) as [d | ] eqn:Hd; [ | discriminate Hv].
    injection Hv as <-. cbn [float_free].
    apply (loads_object_forallb (fun x => loads x depth) _ _ m) with (d := []) (res := d) (2 := Hj);
      [ | reflexivity | exact Hd].
    apply (Forall_impl _ _ _ IH). intros [k x] Hx v Hpre Hxv.
    cbn [fst snd] in *. apply andb_true_iff in Hpre as [_ Hpre].
    exact (Hx depth v Hpre Hxv).
Qed.

Lemma loads_well_formed (j : json) :
  forall depth v, plain_json j = true -> loads j depth = Some v -> well_formed v = true.
Proof.
  induction j as [ | b | z | f | s | l IH | m IH] using json_ind_nested;
    intros depth v Hj Hv; cbn [loads] in Hv; cbn [plain_json] in Hj.
  - injection Hv as <-. reflexivity.
  - injection Hv as <-. reflexivity.
  - unfold int_of_literal in Hv. destruct (int_renders z); [ | discriminate Hv].
    injection Hv as <-. reflexivity.
  - discriminate Hj.
  - injection Hv as <-. exact Hj.
  - destruct depth as [ | depth]; [discriminate Hv |].
    destruct (loads_array _ l) as [vs | ] eqn:Hvs; [ | discriminate Hv].
    injection Hv as <-. cbn [well_formed].
    apply (loads_array_forallb (fun x => loads x depth) plain_json well_formed l); [ | exact Hj | exact Hvs].
    apply (Forall_impl _ _ _ IH). intros x Hx v Hpre Hxv. exact (Hx depth v Hpre Hxv).
  - destruct depth as [ | depth]; [discriminate Hv |].
    destruct (loads_object _ m []) as [d | ] eqn:Hd; [ | discriminate Hv].
    injection Hv as <-. cbn [well_formed].
    apply (loads_object_forallb (fun x => loads x depth) _ _ m) with (d := []) (res := d) (2 := Hj);
      [ | reflexivity | exact Hd].
    apply (Forall_impl _ _ _ IH). intros [k x] Hx v Hpre Hxv.
    cbn [fst snd] in *. apply andb_true_iff in Hpre as [Hk Hpre].
    rewrite Hk, (Hx depth v Hpre Hxv). reflexivity.
Qed.

Lemma loads_plain (j : json) depth v :
  plain_json j = true -> loads j depth = Some v -> plain v.
Proof.
  intros Hj Hv. split; [exact (loads_float_free j depth v Hj Hv)
                       | exact (loads_well_formed j depth v Hj Hv)].
Qed.

(** An object decodes to a dictionary, when it decodes. *)
Lemma loads_object_is_dict (O : list (str * json)) depth v :
  loads (JObject O) depth = Some v -> exists d, v = VDict d.
Proof.
  cbn [loads]. destruct depth as [ | depth]; [discriminate |].
  destruct (loads_object _ O []) as [d | ]; [ | discriminate].
  intros [= <-]. exists d. reflexivity.
Qed.

End JsonBodies.

Section PostJson.
Import Json.
Variable isprintable : N -> bool.
Variable float_repr : float -> str.

#[local] Abbreviation repr := (Py.repr isprintable float_repr).
#[local] Abbreviation boot := (Main.boot isprintable float_repr).

Lemma serve_post_json_decoded env depth q h j d :
  loads j depth = Some (VDict d) ->
  fst (serve (boot env) (post_json depth q h j))
  = Some (inr {| status_code := 200;
                 content :=
                   VDict [(lit "message",
                           VStr (lit "This is Post Request from python backend and here is response "
                                 ++ repr (VDict d)))] |}).
Proof.
  intros Hd. unfold post_json, decode. rewrite Hd.
  rewrite serve_post_root_value by reflexivity. reflexivity.
Qed.

Lemma serve_post_json_refused env depth q h j :
  loads j depth = None ->
  fst (serve (boot env) (post_json depth q h j)) = Some (inl (HTTPException 400)).
Proof.
  intros Hd. unfold post_json, decode. rewrite Hd.
  rewrite serve_post_root_undecodable. reflexivity.
Qed.

(** C1, as amended: for every JSON object [O] sent as the body that the
    decoder accepts, [POST /] answers 200 with the body [{"message": "This
    is Post Request from python backend and here is response <render(d)>"}],
    where [d] is the dictionary [O] decodes to and [render] is Python's own
    rendering of a [dict] ([repr]), which does not raise on [d]. *)
Theorem post_echoes_decoded_object env history depth q h (O : list (str * json)) :
  is_Some (loads (JObject O) depth) ->
  exists d,
    loads (JObject O) depth = Some (VDict d)
    /\ renders (VDict d) = true
    /\ fst (serve (run (boot env) history) (post_json depth q h (JObject O)))
       = Some (inr {| status_code := 200;
                      content :=
                        VDict [(lit "message",
                                VStr (lit "This is Post Request from python backend and here is response "
                                      ++ repr (VDict d)))] |}).
Proof.
  intros [v Hv].
  destruct (loads_object_is_dict O depth v Hv) as [d ->].
  exists d. split_and!.
  - exact Hv.
  - exact (loads_renders (JObject O) depth (VDict d) Hv).
  - rewrite run_boot. apply serve_post_json_decoded, Hv.
Qed.

(** X10: two float-free JSON objects sent to [POST /] get equal responses
    exactly when the decoder gives the same result for both: the same
    dictionary, or a failure for both.  So the response tells apart any two
    objects that decode differently, whatever the server served before
    either. *)
Theorem post_response_determines_decoding
    env history1 history2 depth1 depth2 q1 h1 q2 h2 (O1 O2 : list (str * json)) :
  plain_json (JObject O1) = true -> plain_json (JObject O2) = true ->
  fst (serve (run (boot env) history1) (post_json depth1 q1 h1 (JObject O1)))
  = fst (serve (run (boot env) history2) (post_json depth2 q2 h2 (JObject O2)))
  <-> loads (JObject O1) depth1 = loads (JObject O2) depth2.
Proof.
  intros Hp1 Hp2. rewrite !run_boot.
  destruct (loads (JObject O1) depth1) as [v1 | ] eqn:H1;
    destruct (loads (JObject O2) depth2) as [v2 | ] eqn:H2.
  - destruct (loads_object_is_dict O1 depth1 v1 H1) as [d1 ->].
    destruct (loads_object_is_dict O2 depth2 v2 H2) as [d2 ->].
    rewrite (serve_post_json_decoded env depth1 q1 h1 _ d1 H1).
    rewrite (serve_post_json_decoded env depth2 q2 h2 _ d2 H2).
    split.
    + intros Heq. apply ok_message_inj, app_inv_head in Heq.
      rewrite (repr_determines_value isprintable float_repr (VDict d1) (VDict d2)
                 (loads_plain _ _ _ Hp1 H1) (loads_plain _ _ _ Hp2 H2) Heq).
      reflexivity.
    + intros [= ->]. reflexivity.
  - rewrite (serve_post_json_refused env depth2 q2 h2 _ H2).
    destruct (loads_object_is_dict O1 depth1 v1 H1) as [d1 ->].
    rewrite (serve_post_json_decoded env depth1 q1 h1 _ d1 H1).
    split; discriminate.
  - rewrite (serve_post_json_refused env depth1 q1 h1 _ H1).
    destruct (loads_object_is_dict O2 depth2 v2 H2) as [d2 ->].
    rewrite (serve_post_json_decoded env depth2 q2 h2 _ d2 H2).
    split; discriminate.
  - rewrite (serve_post_json_refused env depth1 q1 h1 _ H1).
    rewrite (serve_post_json_refused env depth2 q2 h2 _ H2).
    split; reflexivity.
Qed.

End PostJson.

Example one_and_zeros_3 : one_and_zeros 3 = 1000%Z.
Proof. reflexivity. Qed.

Lemma length_lit_zeros (n : nat) :
  length (lit (NilEmpty.string_of_uint (Nat.iter n Decimal.D0 Decimal.Nil))) = n.
Proof. induction n as [ | n IH]; [reflexivity |]. cbn. f_equal. exact IH. Qed.

Lemma length_lit_one (d : Decimal.uint) :
  length (lit (NilZero.string_of_int (Decimal.norm (Decimal.Pos (Decimal.D1 d)))))
  = S (length (lit (NilEmpty.string_of_uint d))).
Proof. reflexivity. Qed.

Lemma int_digits_one_and_zeros (n : nat) : int_digits (one_and_zeros n) = S n.
Proof.
  unfold int_digits.
  rewrite Z.abs_eq by (unfold one_and_zeros, Z.of_int, Z.of_uint; apply N2Z.is_nonneg).
  unfold int_repr, one_and_zeros. rewrite DecimalZ.to_of, length_lit_one.
  f_equal. apply length_lit_zeros.
Qed.

(** C1, as first stated, fails: the object [{"a": 1000...0}] whose integer
    has 4301 digits is valid JSON, the decoder raises on it, and [POST /]
    answers 400. *)
Lemma post_huge_int_object_refused :
  int_digits (one_and_zeros 4300) = 4301%nat
  /\ Json.loads (Json.JObject [(lit "a", Json.JInt (one_and_zeros 4300))]) 100 = None
  /\ fst (serve (Main.boot (fun _ => true) (fun _ => []) ∅)
            (post_json 100 [] [] (Json.JObject [(lit "a", Json.JInt (one_and_zeros 4300))])))
     = Some (inl (HTTPException 400))
  /\ status (inl (HTTPException 400)) = 400%nat.
Proof.
  assert (Hloads : Json.loads (Json.JObject [(lit "a", Json.JInt (one_and_zeros 4300))]) 100
                   = None).
  { cbn [Json.loads Json.loads_object]. unfold Json.int_of_literal, int_renders.
    rewrite int_digits_one_and_zeros. reflexivity. }
  split_and!.
  - apply int_digits_one_and_zeros.
  - exact Hloads.
  - apply serve_post_json_refused, Hloads.
  - reflexivity.
Qed.

(** An integer of exactly 4300 digits is within the limit. *)
Example post_4300_digit_int_accepted :
  int_digits (one_and_zeros 4299) = 4300%nat
  /\ Json.loads (Json.JObject [(lit "a", Json.JInt (one_and_zeros 4299))]) 100
     = Some (VDict [(lit "a", VInt (one_and_zeros 4299))]).
Proof.
  split; [apply int_digits_one_and_zeros |].
  cbn [Json.loads Json.loads_object]. unfold Json.int_of_literal, int_renders.
  rewrite int_digits_one_and_zeros. reflexivity.
Qed.

Lemma post_echoes_decoded_object_witness :
  is_Some (Json.loads (Json.JObject [(lit "a", Json.JInt 1);
                                     (lit "b", Json.JArray [Json.JNull]);
                                     (lit "a", Json.JInt 2)]) 100)
  /\ exists d,
       Json.loads (Json.JObject [(lit "a", Json.JInt 1);
                                 (lit "b", Json.JArray [Json.JNull]);
                                 (lit "a", Json.JInt 2)]) 100 = Some (VDict d)
       /\ renders (VDict d) = true
       /\ fst (serve (run (Main.boot (fun _ => true) (fun _ => []) ∅) [])
                 (post_json 100 [] []
                    (Json.JObject [(lit "a", Json.JInt 1);
                                   (lit "b", Json.JArray [Json.JNull]);
                                   (lit "a", Json.JInt 2)])))
          = Some (inr {| status_code := 200;
                         content :=
                           VDict [(lit "message",
                                   VStr (lit "This is Post Request from python backend and here is response "
                                         ++ Py.repr (fun _ => true) (fun _ => []) (VDict d)))] |}).
Proof.
  assert (H : is_Some (Json.loads (Json.JObject [(lit "a", Json.JInt 1);
                                                 (lit "b", Json.JArray [Json.JNull]);
                                                 (lit "a", Json.JInt 2)]) 100)).
  { eexists. vm_compute. reflexivity. }
  split; [exact H |].
  exact (post_echoes_decoded_object (fun _ => true) (fun _ => []) ∅ [] 100 [] [] _ H).
Defined.

Lemma post_response_determines_decoding_witness :
  Json.plain_json (Json.JObject [(lit "a", Json.JInt 1); (lit "a", Json.JInt 2)]) = true
  /\ Json.plain_json (Json.JObject [(lit "a", Json.JInt 2)]) = true
  /\ (fst (serve (run (Main.boot (fun _ => true) (fun _ => []) ∅) [])
             (post_json 100 [] []
                (Json.JObject [(lit "a", Json.JInt 1); (lit "a", Json.JInt 2)])))
      = fst (serve (run (Main.boot (fun _ => true) (fun _ => []) ∅) [])
               (post_json 100 [] [] (Json.JObject [(lit "a", Json.JInt 2)])))
      <-> Json.loads (Json.JObject [(lit "a", Json.JInt 1); (lit "a", Json.JInt 2)]) 100
          = Json.loads (Json.JObject [(lit "a", Json.JInt 2)]) 100).
Proof.
  split; [reflexivity |]. split; [reflexivity |].
  exact (post_response_determines_decoding (fun _ => true) (fun _ => []) ∅ [] [] 100 100
           [] [] [] []
           [(lit "a", Json.JInt 1); (lit "a", Json.JInt 2)] [(lit "a", Json.JInt 2)]
           eq_refl eq_refl).
Defined.
